(** * Drought pipeline: spatial windowing, regridding and resampling

    A shallow embedding of the algorithmic parts of the repository:
    - [src/exporters/mantle_modis.py]: [window_from_extent], [chop_roi];
    - [src/preprocess/base.py]: [regrid], [resample_time];
    - [scripts/drafts/skill_score.py]: [skill_score].

    Floating-point coordinates and metric values are modelled by exact
    rationals ([Q]); Python exceptions by the left summand of [result]. *)

From Stdlib Require Import ZArith QArith Qround Qabs Qminmax Lqa Lia String List.
From stdpp Require Import gmap strings list pretty sorting.

Local Open Scope Z_scope.

(** ** Python exceptions and results *)

Inductive exn : Type :=
| AssertionError (msg : string)
| TransformNotInvertibleError
| WindowError
| RasterioIOError
| ValueError
| TypeError
| IndexError
| KeyError (key : string).

Definition result (A : Type) : Type := (exn + A)%type.

Definition Ok {A : Type} (x : A) : result A := inr x.
Definition Raise {A : Type} (e : exn) : result A := inl e.

Definition bind {A B : Type} (m : result A) (k : A -> result B) : result B :=
  match m with
  | inl e => inl e
  | inr x => k x
  end.

Notation "'let*' x ':=' m 'in' k" := (bind m (fun x => k))
  (at level 10, x pattern, m at level 100, k at level 200, only parsing).

(** ** Numbers

    [py_int] is Python's [int(x)] on a float: truncation toward zero. *)

Definition py_int (x : Q) : Z := Z.quot (Qnum x) (Zpos (Qden x)).

(** [math.floor] and [math.ceil]. *)
Definition py_floor (x : Q) : Z := Qfloor x.
Definition py_ceil (x : Q) : Z := Qceiling x.

Definition Qeqb (x y : Q) : bool := Qeq_bool x y.
Definition Qleb (x y : Q) : bool := Qle_bool x y.

(** ** The [affine] package: 2-D affine transforms

    [Affine(a, b, c, d, e, f)] is the matrix
    [[a b c] [d e f] [0 0 1]] taking pixel (col, row) to geographic (x, y). *)

Module Affine.

Record t : Type := mk { a : Q; b : Q; c : Q; d : Q; e : Q; f : Q }.

Definition determinant (s : t) : Q := (a s * e s - b s * d s)%Q.

Definition is_degenerate (s : t) : bool := Qeqb (determinant s) 0.

(** [~aff] *)
Definition invert (s : t) : result t :=
  if is_degenerate s then Raise TransformNotInvertibleError
  else
    let idet := (1 / determinant s)%Q in
    let ra := (e s * idet)%Q in
    let rb := (- b s * idet)%Q in
    let rd := (- d s * idet)%Q in
    let re := (a s * idet)%Q in
    Ok (mk ra rb (- c s * ra - f s * rb) rd re (- c s * rd - f s * re)).

(** [aff * (vx, vy)] *)
Definition apply (s : t) (v : Q * Q) : Q * Q :=
  let (vx, vy) := v in
  ((vx * a s + vy * b s + c s)%Q, (vx * d s + vy * e s + f s)%Q).

(** [aff * other] *)
Definition mul (s o : t) : t :=
  mk (a s * a o + b s * d o) (a s * b o + b s * e o)
     (a s * c o + b s * f o + c s)
     (d s * a o + e s * d o) (d s * b o + e s * e o)
     (d s * c o + e s * f o + f s).

(** [Affine.translation(xoff, yoff)] *)
Definition translation (xoff yoff : Q) : t := mk 1 0 xoff 0 1 yoff.

End Affine.

(** Equality of points up to the equality of rationals. *)
Definition pt_eq (p q : Q * Q) : Prop := (fst p == fst q /\ snd p == snd q)%Q.

(** ** [MantleModisExporter.window_from_extent] *)

Definition window : Type := ((Z * Z) * (Z * Z))%type.

Definition window_from_extent (xmin xmax ymin ymax : Q) (aff : Affine.t)
  : result window :=
  let* inv := Affine.invert aff in
  let '(col_start, row_start) := Affine.apply inv (xmin, ymax) in
  let '(col_stop, row_stop) := Affine.apply inv (xmax, ymin) in
  Ok ((py_int row_start, py_int row_stop), (py_int col_start, py_int col_stop)).

(** ** [skill_score] ([scripts/drafts/skill_score.py])

    On Python numbers the division raises when the denominator is zero. *)

Inductive arith_exn : Type := ZeroDivisionError.

Definition skill_score (model bench perfect : Q) : arith_exn + Q :=
  if Qeqb (perfect - bench) 0 then inl ZeroDivisionError
  else inr ((model - bench) / (perfect - bench))%Q.

(** ** The [rasterio] package, as far as [chop_roi] uses it

    Windows carry float offsets and lengths; here exact rationals.  The
    definitions follow [rasterio.windows] and [rasterio.transform]. *)

Module Window.

Record t : Type := mk { col_off : Q; row_off : Q; width : Q; height : Q }.

(** One axis of [Window.from_slices]: negative indexes count from the end
    unless [boundless]; the length is never less than 0. *)
Definition axis (start stop : Q) (len : Q) (boundless : bool)
  : result (Q * Q) :=
  if boundless then Ok (start, Qmax (stop - start) 0)
  else if Qleb 0 start && Qleb 0 stop then Ok (start, Qmax (stop - start) 0)
  else if negb (Qleb 0 len) then Raise WindowError
  else
    let start' := if Qleb 0 start then start else (start + len)%Q in
    let stop' := if Qleb 0 stop then stop else (stop + len)%Q in
    Ok (start', Qmax (stop' - start') 0).

(** [Window.from_slices(rows, cols, height, width, boundless)] *)
Definition from_slices (rows cols : Q * Q) (height width : Q)
    (boundless : bool) : result t :=
  let* (row_off, num_rows) := axis (fst rows) (snd rows) height boundless in
  let* (col_off, num_cols) := axis (fst cols) (snd cols) width boundless in
  Ok (mk col_off row_off num_cols num_rows).

(** [Window.round_shape()]: lengths rounded up ([op='ceil']). *)
Definition round_shape (w : t) : t :=
  mk (col_off w) (row_off w)
     (inject_Z (py_ceil (width w))) (inject_Z (py_ceil (height w))).

(** [Window.round_offsets()]: offsets rounded down ([op='floor']). *)
Definition round_offsets (w : t) : t :=
  mk (inject_Z (py_floor (col_off w))) (inject_Z (py_floor (row_off w)))
     (width w) (height w).

End Window.

Definition window_to_Q (w : window) : (Q * Q) * (Q * Q) :=
  let '((r0, r1), (c0, c1)) := w in
  ((inject_Z r0, inject_Z r1), (inject_Z c0, inject_Z c1)).

(** [rasterio.windows.evaluate(window, height, width)] on a tuple window. *)
Definition evaluate (w : window) (height width : Q) : result Window.t :=
  let '(rows, cols) := window_to_Q w in
  Window.from_slices rows cols height width false.

(** [rasterio.windows.bounds(window, transform)]:
    [(left, bottom, right, top)]. *)
Definition bounds (w : window) (transform : Affine.t)
  : result (Q * Q * Q * Q) :=
  let* win := evaluate w 0 0 in
  let row_min := Window.row_off win in
  let row_max := (row_min + Window.height win)%Q in
  let col_min := Window.col_off win in
  let col_max := (col_min + Window.width win)%Q in
  let '(left_, bottom_) := Affine.apply transform (col_min, row_max) in
  let '(right_, top_) := Affine.apply transform (col_max, row_min) in
  Ok (left_, bottom_, right_, top_).

(** [rasterio.windows.transform(window, transform)], which is what
    [src.window_transform(window)] returns. *)
Definition window_transform (w : window) (transform : Affine.t)
  : result Affine.t :=
  let* win := evaluate w 0 0 in
  let '(x, y) :=
    Affine.apply transform (Window.col_off win, Window.row_off win) in
  Ok (Affine.mul
        (Affine.translation (x - Affine.c transform) (y - Affine.f transform))
        transform).

(** [rasterio.transform.rowcol(transform, x, y, op=float)]; the
    floating-point tolerance added to the coordinates is zero in exact
    arithmetic. *)
Definition rowcol (transform : Affine.t) (x y : Q) : result (Q * Q) :=
  let* inv := Affine.invert transform in
  let '(fcol, frow) := Affine.apply inv (x, y) in
  Ok (frow, fcol).

(** [rasterio.windows.from_bounds(left, bottom, right, top, transform)] *)
Definition from_bounds (b : Q * Q * Q * Q) (transform : Affine.t)
  : result Window.t :=
  let '(left_, bottom_, right_, top_) := b in
  let* (row_start, col_start) := rowcol transform left_ top_ in
  let* (row_stop, col_stop) := rowcol transform right_ bottom_ in
  Window.from_slices (row_start, row_stop) (col_start, col_stop) (-1) (-1) true.

(** [rasterio.windows.crop(window, height, width)] *)
Definition crop (w : Window.t) (height width : Q) : Window.t :=
  let row_start := Qmin (Qmax (Window.row_off w) 0) height in
  let col_start := Qmin (Qmax (Window.col_off w) 0) width in
  let row_stop := Qmax 0 (Qmin (Window.row_off w + Window.height w) height) in
  let col_stop := Qmax 0 (Qmin (Window.col_off w + Window.width w) width) in
  Window.mk col_start row_start (col_stop - col_start) (row_stop - row_start).

(** A single-band raster tile: a 2-D array of pixel values (rows of
    columns) with its affine transform and declared size. *)
Record Raster : Type := mkRaster {
  transform : Affine.t;
  height : Z;
  width : Z;
  band1 : list (list Z)
}.

(** The array has the declared shape. *)
Definition raster_shape_ok (r : Raster) : bool :=
  bool_decide (Z.of_nat (length (band1 r)) = height r) &&
  forallb (fun row => bool_decide (Z.of_nat (length row) = width r)) (band1 r).

(** [array[r0:r0+h, c0:c0+w]] for non-negative offsets. *)
Definition slice2 (data : list (list Z)) (r0 h c0 w : Z) : list (list Z) :=
  map (fun row => take (Z.to_nat w) (drop (Z.to_nat c0) row))
      (take (Z.to_nat h) (drop (Z.to_nat r0) data)).

(** [src.read(1, window=window)], not boundless: the window is clipped to
    the dataset and the pixels under it are returned. *)
Definition read (src : Raster) (w : window) : result (list (list Z)) :=
  let '(rows, cols) := window_to_Q w in
  let* win := Window.from_slices rows cols
                (inject_Z (height src)) (inject_Z (width src)) false in
  let win := crop win (inject_Z (height src)) (inject_Z (width src)) in
  Ok (slice2 (band1 src)
        (py_int (Window.row_off win)) (py_int (Window.height win))
        (py_int (Window.col_off win)) (py_int (Window.width win))).

(** [rasterio.open(path, "w", **profile)]: a new dataset of the profile's
    size, zero-filled; the driver refuses sizes that are not positive. *)
Definition create (h w : Z) (tr : Affine.t) : result Raster :=
  if (0 <? h) && (0 <? w)
  then Ok (mkRaster tr h w (replicate (Z.to_nat h) (replicate (Z.to_nat w) 0)))
  else Raise RasterioIOError.

(** Row [i] of the destination after writing [arr] at row offset [yoff],
    column offset [xoff]. *)
Definition write_row (xoff : nat) (new old : list Z) : list Z :=
  take xoff old ++ new ++ drop (xoff + length new) old.

Definition write_rows (yoff xoff : nat) (arr data : list (list Z))
  : list (list Z) :=
  take yoff data
  ++ zip_with (write_row xoff) arr (drop yoff data)
  ++ drop (yoff + length arr) data.

(** [dst.write(array, window=dst_window, indexes=1)] for an array whose
    shape is the window's and a window inside the dataset.  A write that
    would resample the array or leave the dataset is an I/O error (the
    resampling write is not part of this model). *)
Definition write (dst : Raster) (arr : list (list Z)) (w : Window.t)
  : result Raster :=
  let yoff := py_int (Window.row_off w) in
  let xoff := py_int (Window.col_off w) in
  let h := py_int (Window.height w) in
  let wd := py_int (Window.width w) in
  if (0 <=? yoff) && (0 <=? xoff) && (yoff + h <=? height dst)
     && (xoff + wd <=? width dst)
     && bool_decide (Z.of_nat (length arr) = h)
     && forallb (fun row => bool_decide (Z.of_nat (length row) = wd)) arr
  then Ok (mkRaster (transform dst) (height dst) (width dst)
             (write_rows (Z.to_nat yoff) (Z.to_nat xoff) arr (band1 dst)))
  else Raise RasterioIOError.

(** [src.utils.Region] *)
Record Region : Type := mkRegion {
  latmin : Q; latmax : Q; lonmin : Q; lonmax : Q
}.

(** ** [MantleModisExporter.chop_roi]

    The tile is the opened [tif_file], the region is
    [region_lookup[subset_str]]; the result is the content of the new file. *)
Definition chop_roi (src : Raster) (region : Region) : result Raster :=
  let ymin := latmin region in
  let ymax := latmax region in
  let xmin := lonmin region in
  let xmax := lonmax region in
  let aff := transform src in
  let* window := window_from_extent xmin xmax ymin ymax aff in
  let* src_bounds := bounds window (transform src) in
  let dst_height := snd (fst window) - fst (fst window) in
  let dst_width := snd (snd window) - fst (snd window) in
  let* dst_transform := window_transform window (transform src) in
  let* dst_window := from_bounds src_bounds dst_transform in
  let dst_window := Window.round_offsets (Window.round_shape dst_window) in
  let* dst := create dst_height dst_width dst_transform in
  let* array_of_data := read src window in
  write dst array_of_data dst_window.

(** Pixel [(i, j)] of a raster, if any. *)
Definition pixel (r : Raster) (i j : Z) : option Z :=
  if (0 <=? i) && (0 <=? j)
  then row ← band1 r !! Z.to_nat i; row !! Z.to_nat j
  else None.

(** The window lies within the raster's extent. *)
Definition window_within (w : window) (r : Raster) : Prop :=
  let '((r0, r1), (c0, c1)) := w in
  0 <= r0 <= height r /\ 0 <= r1 <= height r /\
  0 <= c0 <= width r /\ 0 <= c1 <= width r.

(** Pixel coordinates [(col, row)] of a geographic point. *)
Definition pixel_coords (aff : Affine.t) (p : Q * Q) : result (Q * Q) :=
  let* inv := Affine.invert aff in Ok (Affine.apply inv p).

(** The box's two defining corners fall on the raster: their pixel
    coordinates lie in [[0, width] x [0, height]]. *)
Definition corner_inside (r : Raster) (p : Q * Q) : Prop :=
  exists col row, pixel_coords (transform r) p = Ok (col, row) /\
    (0 <= col <= inject_Z (width r))%Q /\ (0 <= row <= inject_Z (height r))%Q.

Definition box_inside (r : Raster) (xmin xmax ymin ymax : Q) : Prop :=
  corner_inside r (xmin, ymax) /\ corner_inside r (xmax, ymin).

(** ** The [xarray] data model, as far as [regrid] uses it *)

Record xr_Variable : Type := mkVariable {
  v_sizes : list (string * nat);   (* the dimensions, each with its length *)
  v_numeric : bool;                (* the dtype is a number or a bool *)
  v_values : list Q                (* the data, row-major *)
}.

Definition v_dims (v : xr_Variable) : list string := (v_sizes v).*1.
Definition v_shape (v : xr_Variable) : list nat := (v_sizes v).*2.

(** A dataset: its variables by name, and the names given as coordinates. *)
Record Dataset : Type := mkDataset {
  variables : gmap string xr_Variable;
  explicit_coords : gset string
}.

Record DataArray : Type := mkDataArray {
  da_variable : xr_Variable;
  da_coords : gmap string xr_Variable
}.

Definition var_sizes (v : xr_Variable) : gmap string nat :=
  list_to_map (v_sizes v).

(** [ds.dims]: every dimension of every variable, with its length. *)
Definition calculate_dimensions (vars : gmap string xr_Variable)
  : gmap string nat :=
  map_fold (fun _ v acc => var_sizes v ∪ acc) ∅ vars.

Definition dims (ds : Dataset) : gmap string nat :=
  calculate_dimensions (variables ds).

(** ['name' in ds.dims] *)
Definition in_dims (name : string) (ds : Dataset) : bool :=
  bool_decide (name ∈ dom (dims ds)).

(** The coordinates: the variables given as such, and every variable that
    bears the name of a dimension. *)
Definition coord_names (ds : Dataset) : gset string :=
  filter (fun name => name ∈ explicit_coords ds \/ name ∈ dom (dims ds))
         (dom (variables ds)).

Definition data_vars (ds : Dataset) : gmap string xr_Variable :=
  filter (fun kv => kv.1 ∉ coord_names ds) (variables ds).

Definition coords (ds : Dataset) : gmap string xr_Variable :=
  filter (fun kv => kv.1 ∈ coord_names ds) (variables ds).

(** A dimension without a coordinate variable reads as [0, 1, ..., n-1]. *)
Definition virtual_variable (name : string) (n : nat) : xr_Variable :=
  mkVariable [(name, n)] true
    (map (fun i => inject_Z (Z.of_nat i)) (seq 0 n)).

Definition subset_dims (inner outer : list string) : bool :=
  forallb (fun d => bool_decide (d ∈ outer)) inner.

(** [ds[name]]: the variable with the coordinates that fit its dimensions. *)
Definition getitem (ds : Dataset) (name : string) : result DataArray :=
  let* variable :=
    match variables ds !! name with
    | Some v => Ok v
    | None =>
        match dims ds !! name with
        | Some n => Ok (virtual_variable name n)
        | None => Raise (KeyError name)
        end
    end in
  Ok (mkDataArray variable
        (filter (fun kv => subset_dims (v_dims kv.2) (v_dims variable) = true)
                (coords ds))).

(** [len(da)] *)
Definition len (da : DataArray) : result nat :=
  match v_shape (da_variable da) with
  | n :: _ => Ok n
  | [] => Raise TypeError
  end.

Definition Qsum (l : list Q) : Q := fold_right Qplus 0%Q l.

Definition Qmean (l : list Q) : Q :=
  (Qsum l / inject_Z (Z.of_nat (length l)))%Q.

(** Population variance of the data, as [var()] computes it; no number for
    no data. *)
Definition variance (l : list Q) : list Q :=
  match l with
  | [] => []
  | _ => [Qmean (map (fun x => (x - Qmean l) * (x - Qmean l))%Q l)]
  end.

(** [ds.var()]: a reduction over all dimensions with [numeric_only=True].
    Coordinates along a reduced dimension go, scalar coordinates stay;
    data variables that are not numeric are left out. *)
Definition ds_var (ds : Dataset) : Dataset :=
  mkDataset
    (map_imap
       (fun name v =>
          if bool_decide (name ∈ coord_names ds)
          then match v_sizes v with [] => Some v | _ => None end
          else if v_numeric v
               then Some (mkVariable [] true (variance (v_values v)))
               else None)
       (variables ds))
    (coord_names ds).

(** [xr.Dataset(output_dict)] for a dictionary of data arrays: the arrays
    become the data variables and bring their coordinates along. *)
Definition merged_coords (d : gmap string DataArray)
  : gmap string xr_Variable :=
  map_fold (fun _ da acc => da_coords da ∪ acc) ∅ d.

Definition Dataset_of_dict (d : gmap string DataArray) : Dataset :=
  mkDataset ((da_variable <$> d) ∪ merged_coords d)
            (dom (merged_coords d) ∖ dom d).

(** ** The [xesmf] package: [Regridder]

    The regridder keeps its weights in a file.  The state it acts on is
    the set of files on disk, with a journal of what was done to them. *)

Inductive fs_event : Type :=
| WriteWeights (path : string)    (* weights computed and written *)
| Remove (path : string).

Record World : Type := mkWorld {
  files : gset string;
  journal : list fs_event
}.

(** Computations that read and change the world and may raise. *)
Definition io (A : Type) : Type := World -> World * result A.

Definition io_ret {A : Type} (x : A) : io A := fun w => (w, Ok x).
Definition io_raise {A : Type} (e : exn) : io A := fun w => (w, Raise e).
Definition io_lift {A : Type} (r : result A) : io A := fun w => (w, r).

Definition io_bind {A B : Type} (m : io A) (k : A -> io B) : io B :=
  fun w =>
    match m w with
    | (w', inl e) => (w', inl e)
    | (w', inr x) => k x w'
    end.

Notation "'do!' x '<-' m ';' k" := (io_bind m (fun x => k))
  (at level 10, x pattern, m at level 100, k at level 200, only parsing).

(** [assert cond, msg] *)
Definition py_assert (cond : bool) (msg : string) : io unit :=
  if cond then io_ret tt else io_raise (AssertionError msg).

(** [os.remove(path)] for a file that exists. *)
Definition os_remove (path : string) : io unit :=
  fun w => (mkWorld (files w ∖ {[path]}) (journal w ++ [Remove path]), Ok tt).

(** The numerical core (ESMF): from a method and the two grids, the linear
    map that takes the values on the source grid to the destination grid. *)
Class ESMF : Type := {
  esmf_regrid_build :
    string -> xr_Variable -> xr_Variable -> xr_Variable -> xr_Variable ->
    list Q -> list Q
}.

Record Regridder : Type := mkRegridder {
  rg_method : string;
  Ny_in : nat;
  Nx_in : nat;
  Ny_out : nat;
  Nx_out : nat;
  lat_out : xr_Variable;
  lon_out : xr_Variable;
  weights : list Q -> list Q;
  filename : string
}.

(** The horizontal shape [(Ny, Nx)] of a grid given by its [lat] and [lon]. *)
Definition grid_shape (lat lon : xr_Variable) : result (nat * nat) :=
  match v_shape lat, v_shape lon with
  | [ny], [nx] => Ok (ny, nx)
  | [ny; nx], [ny'; nx'] => Ok (ny', nx')
  | _, _ => Raise ValueError
  end.

(** [Regridder._write_weight_file]: an existing file is kept when
    [reuse_weights] and replaced otherwise; then the weights are computed
    and written. *)
Definition write_weight_file (filename : string) (reuse_weights : bool)
  : io unit :=
  fun w =>
    if bool_decide (filename ∈ files w) && reuse_weights then (w, Ok tt)
    else
      let w1 := if bool_decide (filename ∈ files w)
                then fst (os_remove filename w) else w in
      (mkWorld ({[filename]} ∪ files w1)
               (journal w1 ++ [WriteWeights filename]), Ok tt).

(** The cell bounds that the conservative method reads from a grid. *)
Definition need_bounds (method : string) (ds : Dataset) : io unit :=
  if String.eqb method "conservative"
  then do! _ <- io_lift (getitem ds "lon_b");
       do! _ <- io_lift (getitem ds "lat_b");
       io_ret tt
  else io_ret tt.

(** [xe.Regridder(ds_in, ds_out, method, filename=..., reuse_weights=...)] *)
Definition Regridder_init `{ESMF} (ds_in ds_out : Dataset) (method : string)
    (filename : string) (reuse_weights : bool) : io Regridder :=
  do! lon_in <- io_lift (getitem ds_in "lon");
  do! lat_in <- io_lift (getitem ds_in "lat");
  do! _ <- need_bounds method ds_in;
  do! shape_in <-
    io_lift (grid_shape (da_variable lat_in) (da_variable lon_in));
  do! lon_o <- io_lift (getitem ds_out "lon");
  do! lat_o <- io_lift (getitem ds_out "lat");
  do! _ <- need_bounds method ds_out;
  do! shape_out <-
    io_lift (grid_shape (da_variable lat_o) (da_variable lon_o));
  do! _ <- write_weight_file filename reuse_weights;
  io_ret (mkRegridder method (fst shape_in) (snd shape_in)
            (fst shape_out) (snd shape_out)
            (da_variable lat_o) (da_variable lon_o)
            (esmf_regrid_build method (da_variable lat_in) (da_variable lon_in)
               (da_variable lat_o) (da_variable lon_o))
            filename).

(** The last two entries of a list, and what is before them. *)
Definition last2 {A : Type} (l : list A) : list A :=
  drop (length l - 2) l.
Definition but_last2 {A : Type} (l : list A) : list A :=
  take (length l - 2) l.

(** The names of the output's horizontal dimensions. *)
Definition out_horiz_dims (r : Regridder) : string * string :=
  match v_shape (lat_out r) with
  | [_] => ("lat", "lon")
  | _ => ("y", "x")
  end.

(** [regridder(da)]: the trailing two dimensions are the horizontal ones
    and must have the regridder's input shape; they are replaced by the
    output grid, whose coordinates the result carries. *)
Definition Regridder_call (r : Regridder) (da : DataArray)
  : result DataArray :=
  let v := da_variable da in
  if negb (bool_decide (last2 (v_shape v) = [Ny_in r; Nx_in r]))
  then Raise (AssertionError "horizontal shape differs from the regridder's")
  else
    let horiz := last2 (v_dims v) in
    let kept :=
      filter (fun kv => forallb (fun d => bool_decide (d ∉ horiz)) (v_dims kv.2)
                        = true)
             (da_coords da) in
    Ok (mkDataArray
          (mkVariable (but_last2 (v_sizes v)
                       ++ [(fst (out_horiz_dims r), Ny_out r);
                           (snd (out_horiz_dims r), Nx_out r)])
                      true
                      (weights r (v_values v)))
          (<["lat" := lat_out r]> (<["lon" := lon_out r]> kept))).

(** [regridder.clean_weight_file()] *)
Definition clean_weight_file (r : Regridder) : io unit :=
  fun w =>
    if bool_decide (filename r ∈ files w) then os_remove (filename r) w
    else (w, Ok tt).

(** ** [BasePreProcessor] ([src/preprocess/base.py]) *)

Record BasePreProcessor : Type := mkBasePreProcessor {
  data_folder : string
}.

(** [Path / name] *)
Definition path_join (p name : string) : string := p +:+ "/" +:+ name.

Definition raw_folder (self : BasePreProcessor) : string :=
  path_join (data_folder self) "raw".
Definition interim_folder (self : BasePreProcessor) : string :=
  path_join (data_folder self) "interim".

Definition regridding_methods : list string :=
  ["bilinear"; "conservative"; "nearest_s2d"; "nearest_d2s"; "patch"].

(** The fixed part of the messages of the two assertions on dimensions. *)
Definition need_reference_dims : string := "Need (lat,lon) in reference_ds dims".
Definition need_ds_dims : string := "Need (lat,lon) in ds dims".

(** [f'{method}_{shape_in[0]}x{shape_in[1]}_{shape_out[0]}x{shape_out[1]}.nc'] *)
Definition weight_filename (method : string) (shape_in shape_out : nat * nat)
  : string :=
  method +:+ "_" +:+ pretty (fst shape_in) +:+ "x" +:+ pretty (snd shape_in)
  +:+ "_" +:+ pretty (fst shape_out) +:+ "x" +:+ pretty (snd shape_out)
  +:+ ".nc".

(** [(['dim'], da)] as a variable of a new dataset: the data of [da] along
    the one dimension [dim]. *)
Definition as_1d (dim : string) (da : DataArray) : result xr_Variable :=
  match v_shape (da_variable da) with
  | [n] => Ok (mkVariable [(dim, n)] (v_numeric (da_variable da))
                 (v_values (da_variable da)))
  | _ => Raise ValueError
  end.

(** The loop over [variables] filling [output_dict]. *)
Fixpoint regrid_variables (regridder : Regridder) (ds : Dataset)
    (vars : list string) (output_dict : gmap string DataArray)
  : result (gmap string DataArray) :=
  match vars with
  | [] => Ok output_dict
  | var :: rest =>
      let* da := getitem ds var in
      let* out := Regridder_call regridder da in
      regrid_variables regridder ds rest (<[var := out]> output_dict)
  end.

(** [BasePreProcessor.regrid] *)
Definition regrid `{ESMF} (self : BasePreProcessor)
    (ds reference_ds : Dataset) (method : string) : io Dataset :=
  do! _ <- py_assert (in_dims "lat" reference_ds && in_dims "lon" reference_ds)
             need_reference_dims;
  do! _ <- py_assert (in_dims "lat" ds && in_dims "lon" ds) need_ds_dims;
  do! _ <- py_assert (bool_decide (method ∈ regridding_methods))
             "not an acceptable regridding method";
  do! ref_lat <- io_lift (getitem reference_ds "lat");
  do! ref_lon <- io_lift (getitem reference_ds "lon");
  do! out_lat <- io_lift (as_1d "lat" ref_lat);
  do! out_lon <- io_lift (as_1d "lon" ref_lon);
  let ds_out :=
    mkDataset (<["lat" := out_lat]> (<["lon" := out_lon]> ∅)) ∅ in
  do! ds_lat <- io_lift (getitem ds "lat");
  do! ds_lon <- io_lift (getitem ds "lon");
  do! ny_in <- io_lift (len ds_lat);
  do! nx_in <- io_lift (len ds_lon);
  do! ny_out <- io_lift (len ref_lat);
  do! nx_out <- io_lift (len ref_lon);
  let shape_in := (ny_in, nx_in) in
  let shape_out := (ny_out, nx_out) in
  let filename := weight_filename method shape_in shape_out in
  let savedir := path_join (interim_folder self) filename in
  do! regridder <- Regridder_init ds ds_out method savedir false;
  let variables := (map_to_list (variables (ds_var ds))).*1 in
  do! output_dict <- io_lift (regrid_variables regridder ds variables ∅);
  let ds := Dataset_of_dict output_dict in
  do! _ <- clean_weight_file regridder;
  io_ret ds.

(** ** Time

    A timestamp is a day number, counted from 1970-01-01.  The civil
    calendar gives the month a day belongs to. *)

(** Year, month and day of a day number (proleptic Gregorian calendar). *)
Definition civil_from_days (t : Z) : Z * Z * Z :=
  let z := t + 719468 in
  let era := z / 146097 in
  let doe := z - era * 146097 in
  let yoe := (doe - doe / 1460 + doe / 36524 - doe / 146096) / 365 in
  let y := yoe + era * 400 in
  let doy := doe - (365 * yoe + yoe / 4 - yoe / 100) in
  let mp := (5 * doy + 2) / 153 in
  let d := doy - (153 * mp + 2) / 5 + 1 in
  let m := if mp <? 10 then mp + 3 else mp - 9 in
  ((if m <=? 2 then y + 1 else y), m, d).

Definition days_from_civil (y m d : Z) : Z :=
  let y := if m <=? 2 then y - 1 else y in
  let era := y / 400 in
  let yoe := y - era * 400 in
  let doy := (153 * (if 2 <? m then m - 3 else m + 9) + 2) / 5 + d - 1 in
  let doe := yoe * 365 + yoe / 4 - yoe / 100 + doy in
  era * 146097 + doe - 719468.

(** The target frequencies: ['D'] (calendar day) and ['M'] (month end). *)
Inductive freq : Type := Daily | MonthEnd.

(** The number of the period a timestamp falls in. *)
Definition bin (f : freq) (t : Z) : Z :=
  match f with
  | Daily => t
  | MonthEnd => let '(y, m, _) := civil_from_days t in 12 * y + (m - 1)
  end.

(** The timestamp a period is labelled with: the day itself, or the last
    day of the month. *)
Definition label (f : freq) (k : Z) : Z :=
  match f with
  | Daily => k
  | MonthEnd => days_from_civil ((k + 1) / 12) ((k + 1) mod 12 + 1) 1 - 1
  end.

(** ** Time series

    [resample_time] acts along [time] on every variable and grid cell in
    the same way; a series is one such cell: timestamps with values, a
    missing value (NaN) being [None]. *)
Abbreviation series := (list (Z * option Q)).

Definition time_le (p q : Z * option Q) : Prop := p.1 <= q.1.

#[global] Instance time_le_dec : RelDecision time_le :=
  fun p q => Z.le_dec p.1 q.1.

(** [ds.sortby('time')] *)
Definition sortby_time (ds : series) : series := merge_sort time_le ds.

(** The values present among the samples of period [k]. *)
Definition values_in (f : freq) (k : Z) (ds : series) : list Q :=
  omap snd (filter (fun p => bin f p.1 = k) ds).

(** [mean] with NaN skipped: the arithmetic mean of the values present,
    NaN when there is none. *)
Definition nanmean (l : list Q) : option Q :=
  match l with
  | [] => None
  | _ => Some (Qmean l)
  end.

(** The periods from that of the first timestamp to that of the last. *)
Definition periods (f : freq) (ds : series) : result (list Z) :=
  match head ds, last ds with
  | Some (t0, _), Some (t1, _) =>
      Ok (seqZ (bin f t0) (bin f t1 - bin f t0 + 1))
  | _, _ => Raise IndexError
  end.

(** [ds.resample(time=...).mean()] *)
Definition resample_mean (f : freq) (ds : series) : result series :=
  let* ks := periods f ds in
  Ok (map (fun k => (label f k, nanmean (values_in f k ds))) ks).

(** Nearest-value lookup on a sorted index: the last sample not after [t]
    against the first sample not before it; the earlier one wins only
    when it is strictly closer. *)
Definition pad (ds : series) (t : Z) : option (Z * option Q) :=
  last (filter (fun p => p.1 <= t) ds).

Definition backfill (ds : series) (t : Z) : option (Z * option Q) :=
  head (filter (fun p => t <= p.1) ds).

Definition nearest (ds : series) (t : Z) : option (Z * option Q) :=
  match pad ds t, backfill ds t with
  | Some l, Some r => if t - l.1 <? r.1 - t then Some l else Some r
  | Some l, None => Some l
  | None, Some r => Some r
  | None, None => None
  end.

(** [ds.resample(time=...).nearest()]: a re-indexing, which needs the
    timestamps to be distinct. *)
Definition resample_nearest (f : freq) (ds : series) : result series :=
  let* ks := periods f ds in
  if negb (bool_decide (NoDup ds.*1)) then Raise ValueError
  else
    Ok (map (fun k =>
               (label f k,
                match nearest ds (label f k) with
                | Some p => p.2
                | None => None
                end)) ks).

(** [BasePreProcessor.resample_time] *)
Definition resample_time (ds : series) (resample_length : freq)
    (upsampling : bool) : result series :=
  let ds := sortby_time ds in
  if negb upsampling then resample_mean resample_length ds
  else resample_nearest resample_length ds.

(** A daily series of [n] days from day [t0] on, holding [c] throughout. *)
Definition daily_constant (t0 : Z) (n : nat) (c : Q) : series :=
  map (fun i => (t0 + Z.of_nat i, Some c)) (seq 0 n).

(** The months with 31 days. *)
Definition long_months : list Z := [1; 3; 5; 7; 8; 10; 12].

(** ** Examples and auxiliary notions used in the statements *)

(** A transform without rotation or shear terms. *)
Definition axis_aligned (T : Affine.t) : Prop :=
  (Affine.b T == 0 /\ Affine.d T == 0)%Q.

(** A 4 x 5 north-up tile with unit pixels, its top-left corner at (0, 4). *)
Definition tile45 : Raster :=
  mkRaster (Affine.mk 1 0 0 0 (-1) 4) 4 5
    [[1; 2; 3; 4; 5]; [6; 7; 8; 9; 10]; [11; 12; 13; 14; 15];
     [16; 17; 18; 19; 20]].

(** A tile whose rows are skewed in [y]: [y = col/2 - row + 4]. *)
Definition skewed22 : Raster :=
  mkRaster (Affine.mk 1 0 0 (1 # 2) (-1) 4) 2 2 [[1; 2]; [3; 4]].

(** The destination grid that [regrid] builds from the reference. *)
Definition ds_out_of (out_lat out_lon : xr_Variable) : Dataset :=
  mkDataset (<["lat" := out_lat]> (<["lon" := out_lon]> ∅)) ∅.

(** What a call of [regrid] computes on its way. *)
Record regrid_trace : Type := mkTrace {
  run_ref_lat : DataArray;
  run_ref_lon : DataArray;
  run_ds_lat : DataArray;
  run_ds_lon : DataArray;
  run_shape_in : nat * nat;
  run_shape_out : nat * nat;
  run_regridder : Regridder;
  run_dict : gmap string DataArray
}.

(** The trace of a successful call from world [w] to world [w'] with
    result [out]. *)
Record regrid_run (self : BasePreProcessor) (ds reference_ds : Dataset)
    (method : string) (w w' : World) (out : Dataset) (t : regrid_trace)
  : Prop := mkRun {
  run_ref_dims :
    in_dims "lat" reference_ds = true /\ in_dims "lon" reference_ds = true;
  run_ds_dims : in_dims "lat" ds = true /\ in_dims "lon" ds = true;
  run_method : method ∈ regridding_methods;
  run_get_ref_lat : getitem reference_ds "lat" = Ok (run_ref_lat t);
  run_get_ref_lon : getitem reference_ds "lon" = Ok (run_ref_lon t);
  run_get_ds_lat : getitem ds "lat" = Ok (run_ds_lat t);
  run_get_ds_lon : getitem ds "lon" = Ok (run_ds_lon t);
  run_len_in :
    len (run_ds_lat t) = Ok (fst (run_shape_in t)) /\
    len (run_ds_lon t) = Ok (snd (run_shape_in t));
  run_len_out :
    len (run_ref_lat t) = Ok (fst (run_shape_out t)) /\
    len (run_ref_lon t) = Ok (snd (run_shape_out t));
  run_filename :
    filename (run_regridder t)
      = path_join (interim_folder self)
          (weight_filename method (run_shape_in t) (run_shape_out t));
  run_lat_out :
    lat_out (run_regridder t)
      = mkVariable [("lat", fst (run_shape_out t))]
          (v_numeric (da_variable (run_ref_lat t)))
          (v_values (da_variable (run_ref_lat t)));
  run_lon_out :
    lon_out (run_regridder t)
      = mkVariable [("lon", snd (run_shape_out t))]
          (v_numeric (da_variable (run_ref_lon t)))
          (v_values (da_variable (run_ref_lon t)));
  run_N_out :
    Ny_out (run_regridder t) = fst (run_shape_out t) /\
    Nx_out (run_regridder t) = snd (run_shape_out t);
  run_loop :
    regrid_variables (run_regridder t) ds
      (map_to_list (variables (ds_var ds))).*1 ∅ = Ok (run_dict t);
  run_out : out = Dataset_of_dict (run_dict t);
  run_files : files w' = files w ∖ {[filename (run_regridder t)]};
  run_journal :
    journal w'
      = journal w
        ++ (if bool_decide (filename (run_regridder t) ∈ files w)
            then [Remove (filename (run_regridder t))] else [])
        ++ [WriteWeights (filename (run_regridder t));
            Remove (filename (run_regridder t))]
}.

(** The variable the loop of [regrid] produces from an input variable. *)
Definition regridded (t : regrid_trace) (v_in : xr_Variable) : xr_Variable :=
  mkVariable
    (but_last2 (v_sizes v_in)
     ++ [("lat", fst (run_shape_out t)); ("lon", snd (run_shape_out t))])
    true (weights (run_regridder t) (v_values v_in)).

(** The failures of [regrid] that report missing dimensions. *)
Definition precondition_failure (e : exn) : bool :=
  match e with
  | AssertionError msg =>
      String.eqb msg need_reference_dims || String.eqb msg need_ds_dims
  | _ => false
  end.

(** A computation that never reports missing dimensions. *)
Definition no_precondition_failure {A : Type} (m : io A) : Prop :=
  forall w w' e, m w = (w', inl e) -> precondition_failure e = false.

(** Both datasets declare [lat] and [lon]. *)
Definition declare_lat_lon (ds reference_ds : Dataset) : bool :=
  in_dims "lat" reference_ds && in_dims "lon" reference_ds
  && in_dims "lat" ds && in_dims "lon" ds.

(** A stand-in for the numerical core: every destination cell takes the
    first source value. *)
Definition first_value_esmf : ESMF :=
  {| esmf_regrid_build := fun _ _ _ lat_o lon_o vals =>
       replicate (length (v_values lat_o) * length (v_values lon_o))
                 (hd 0%Q vals) |}.

(** A 2 x 3 dataset with a numeric variable [precip] and a variable
    [flag] that is not numeric, and a 1 x 2 reference grid. *)
Definition ds_example : Dataset :=
  mkDataset
    (<["lat" := mkVariable [("lat", 2%nat)] true [0%Q; 1%Q]]>
     (<["lon" := mkVariable [("lon", 3%nat)] true [0%Q; 1%Q; 2%Q]]>
      (<["precip" := mkVariable [("lat", 2%nat); ("lon", 3%nat)] true
                       [1%Q; 2%Q; 3%Q; 4%Q; 5%Q; 6%Q]]>
       (<["flag" := mkVariable [("lat", 2%nat); ("lon", 3%nat)] false
                      [1%Q; 0%Q; 1%Q; 0%Q; 1%Q; 0%Q]]> ∅))))
    ∅.

Definition reference_example : Dataset :=
  mkDataset
    (<["lat" := mkVariable [("lat", 1%nat)] true [5%Q]]>
     (<["lon" := mkVariable [("lon", 2%nat)] true [7%Q; 8%Q]]> ∅))
    ∅.

(** A dataset with a [time] dimension only. *)
Definition ds_no_grid : Dataset :=
  mkDataset
    (<["t2m" := mkVariable [("time", 2%nat)] true [1%Q; 2%Q]]> ∅) ∅.

Definition preprocessor_example : BasePreProcessor :=
  mkBasePreProcessor "data".

Definition empty_world : World := mkWorld ∅ [].

(** The example call of [regrid], and the dataset it returns. *)
Definition regrid_example : World * result Dataset :=
  @regrid first_value_esmf preprocessor_example ds_example reference_example
    "nearest_s2d" empty_world.

Definition returned (r : World * result Dataset) : Dataset :=
  match snd r with
  | inr out => out
  | inl _ => mkDataset ∅ ∅
  end.

(** The first day of a 31-day month keeps the whole month in one period,
    labelled with the month's last day. *)
Definition long_month_ok (y m : Z) : bool :=
  forallb (fun i => bin MonthEnd (days_from_civil y m 1 + Z.of_nat i)
                    =? 12 * y + (m - 1))
          (seq 0 31)
  && (label MonthEnd (12 * y + (m - 1)) =? days_from_civil y m 31).

(** The years that nanosecond timestamps cover entirely. *)
Definition timestamp_years : list Z := seqZ 1678 584.

(** A monthly series labelled with month ends: January and February 1970. *)
Definition monthly_example : series := [(30, Some 1%Q); (58, Some 2%Q)].

(** The example series upsampled to days: January's value up to 13
    February, February's value from 14 February on. *)
Definition upsampled_example : series :=
  map (fun k => (k, Some (if k <? 44 then 1%Q else 2%Q))) (seqZ 30 29).

(** In the spec's words: every day of the output carries the value of the
    input sample of its calendar month. *)
Definition month_value_on_every_day (ds out : series) : Prop :=
  forall d v t u, (d, v) ∈ out -> (t, u) ∈ ds ->
    bin MonthEnd d = bin MonthEnd t -> v = u.

(** * Properties *)

(** ** Rounding *)

Lemma py_int_nonneg (x : Q) : (0 <= x)%Q -> py_int x = Qfloor x.
Proof.
  destruct x as [n d]. unfold py_int, Qfloor, Qle. simpl. intros Hn.
  apply Z.quot_div_nonneg; lia.
Qed.

Lemma py_int_opp (x : Q) : py_int (- x) = - py_int x.
Proof.
  destruct x as [n d]. unfold py_int. simpl.
  apply Z.quot_opp_l. discriminate.
Qed.

Lemma py_int_nonpos (x : Q) : (x <= 0)%Q -> py_int x = Qceiling x.
Proof.
  intros Hx. unfold Qceiling.
  rewrite <- (py_int_nonneg (- x)) by lra.
  rewrite py_int_opp. lia.
Qed.

#[global] Instance py_int_proper : Proper (Qeq ==> eq) py_int.
Proof.
  intros x y Hxy. destruct (Qlt_le_dec x 0) as [Hneg | Hpos].
  - rewrite !py_int_nonpos by lra. unfold Qceiling. now rewrite Hxy.
  - rewrite !py_int_nonneg by lra. now rewrite Hxy.
Qed.

Lemma py_int_inject_Z (z : Z) : py_int (inject_Z z) = z.
Proof. unfold py_int. simpl. apply Z.quot_1_r. Qed.

(** Truncation moves a number by less than one, toward zero. *)
Lemma py_int_toward_zero (x : Q) :
  (Qabs (inject_Z (py_int x) - x) < 1 /\ Qabs (inject_Z (py_int x)) <= Qabs x)%Q.
Proof.
  destruct (Qlt_le_dec x 0) as [Hneg | Hpos].
  - rewrite py_int_nonpos by lra.
    pose proof (Qle_ceiling x) as H1. pose proof (Qceiling_lt x) as H2.
    assert (Hc : (Qceiling x <= 0)%Z).
    { change 0%Z with (Qceiling 0). apply Qceiling_resp_le. lra. }
    assert (Hc' : (inject_Z (Qceiling x) <= 0)%Q).
    { rewrite <- (Zle_Qle _ 0). exact Hc. }
    unfold Z.sub in H2. rewrite inject_Z_plus in H2.
    change (inject_Z (- (1))) with (- (1))%Q in H2.
    split.
    + apply Qabs_case; intros; lra.
    + rewrite (Qabs_neg x) by lra. rewrite Qabs_neg by lra. lra.
  - rewrite py_int_nonneg by lra.
    pose proof (Qfloor_le x) as H1. pose proof (Qlt_floor x) as H2.
    assert (Hc : (0 <= Qfloor x)%Z).
    { change 0%Z with (Qfloor 0). apply Qfloor_resp_le. lra. }
    assert (Hc' : (0 <= inject_Z (Qfloor x))%Q).
    { rewrite <- (Zle_Qle 0). exact Hc. }
    rewrite inject_Z_plus in H2.
    change (inject_Z 1) with 1%Q in H2.
    split.
    + apply Qabs_case; intros; lra.
    + rewrite (Qabs_pos x) by lra. rewrite Qabs_pos by lra. lra.
Qed.

Lemma py_int_range (x : Q) (n : Z) :
  (0 <= x <= inject_Z n)%Q -> 0 <= py_int x <= n.
Proof.
  intros [H0 Hn]. rewrite py_int_nonneg by exact H0. split.
  - change 0 with (Qfloor 0). now apply Qfloor_resp_le.
  - rewrite <- (Qfloor_Z n). now apply Qfloor_resp_le.
Qed.


(** ** Affine transforms *)

Lemma Qeqb_false (x y : Q) : Qeqb x y = false <-> ~ (x == y)%Q.
Proof.
  unfold Qeqb. split.
  - intros H Heq. apply Qeq_bool_iff in Heq. congruence.
  - intros H. destruct (Qeq_bool x y) eqn:E; [|reflexivity].
    apply Qeq_bool_iff in E. contradiction.
Qed.

Lemma Qeqb_true (x y : Q) : Qeqb x y = true <-> (x == y)%Q.
Proof. unfold Qeqb. apply Qeq_bool_iff. Qed.

Lemma Qleb_true (x y : Q) : Qleb x y = true <-> (x <= y)%Q.
Proof. unfold Qleb. apply Qle_bool_iff. Qed.

Lemma invert_ok (s : Affine.t) :
  Affine.is_degenerate s = false ->
  exists inv, Affine.invert s = Ok inv /\
    forall p, pt_eq (Affine.apply s (Affine.apply inv p)) p /\
              pt_eq (Affine.apply inv (Affine.apply s p)) p.
Proof.
  intros Hdet. unfold Affine.invert. rewrite Hdet.
  eexists. split; [reflexivity|].
  apply Qeqb_false in Hdet.
  destruct s as [a b c d e f]. unfold Affine.determinant in *. simpl in *.
  intros [x y]. unfold pt_eq. simpl. repeat split; field; exact Hdet.
Qed.

Lemma invert_degenerate (s : Affine.t) :
  Affine.is_degenerate s = true ->
  Affine.invert s = Raise TransformNotInvertibleError.
Proof. intros H. unfold Affine.invert. now rewrite H. Qed.

(** An invertible transform sends distinct pixel coordinates to distinct
    points. *)
Lemma apply_injective (s : Affine.t) (p q : Q * Q) :
  Affine.is_degenerate s = false ->
  pt_eq (Affine.apply s p) (Affine.apply s q) -> pt_eq p q.
Proof.
  intros Hdet Heq. destruct (invert_ok s Hdet) as (inv & _ & Hinv).
  destruct (Hinv p) as [_ Hp]. destruct (Hinv q) as [_ Hq].
  destruct Heq as [H1 H2]. destruct Hp as [Hp1 Hp2]. destruct Hq as [Hq1 Hq2].
  destruct (Affine.apply s p) as [x y]. destruct (Affine.apply s q) as [x' y'].
  simpl in *. destruct inv as [a b c d e f]. simpl in *.
  split.
  - rewrite <- Hp1, <- Hq1, H1, H2. reflexivity.
  - rewrite <- Hp2, <- Hq2, H1, H2. reflexivity.
Qed.

Lemma window_from_extent_eq (xmin xmax ymin ymax : Q) (aff inv : Affine.t) :
  Affine.invert aff = Ok inv ->
  window_from_extent xmin xmax ymin ymax aff =
    Ok ((py_int (snd (Affine.apply inv (xmin, ymax))),
         py_int (snd (Affine.apply inv (xmax, ymin)))),
        (py_int (fst (Affine.apply inv (xmin, ymax))),
         py_int (fst (Affine.apply inv (xmax, ymin))))).
Proof.
  intros Hinv. unfold window_from_extent. rewrite Hinv. simpl.
  reflexivity.
Qed.




(** ** Windows and the raster's extent *)

Lemma box_inside_invertible (r : Raster) (xmin xmax ymin ymax : Q) :
  box_inside r xmin xmax ymin ymax ->
  Affine.is_degenerate (transform r) = false.
Proof.
  intros [(col & row & Hpc & _) _]. unfold pixel_coords, Affine.invert in Hpc.
  destruct (Affine.is_degenerate (transform r)); [discriminate|reflexivity].
Qed.

Lemma box_inside_window (r : Raster) (xmin xmax ymin ymax : Q) (w : window) :
  box_inside r xmin xmax ymin ymax ->
  window_from_extent xmin xmax ymin ymax (transform r) = Ok w ->
  window_within w r.
Proof.
  intros [(c0 & r0 & H0 & Hc0 & Hr0) (c1 & r1 & H1 & Hc1 & Hr1)] Hw.
  unfold pixel_coords in H0, H1.
  destruct (Affine.invert (transform r)) as [e|inv] eqn:Hinv; [discriminate|].
  unfold bind, Ok in H0, H1.
  injection H0 as H0c H0r. injection H1 as H1c H1r.
  rewrite (window_from_extent_eq _ _ _ _ _ _ Hinv) in Hw.
  simpl in Hw. rewrite H0c, H0r, H1c, H1r in Hw. injection Hw as <-.
  unfold window_within.
  split; [|split; [|split]]; apply py_int_range; assumption.
Qed.




(** ** Skill score *)




(** ** The crop of [chop_roi] *)

Lemma Qmax_0_r (x : Q) : (0 <= x)%Q -> Qmax x 0 = x.
Proof.
  intros Hx. unfold Qmax, GenericMinMax.gmax.
  destruct (Qcompare x 0) eqn:E; try reflexivity.
  apply Qlt_alt in E. lra.
Qed.

Lemma Qclip_offset (x h : Q) : (0 <= x <= h)%Q -> (Qmin (Qmax x 0) h == x)%Q.
Proof.
  intros [H0 Hh]. rewrite (Q.max_l x 0) by exact H0. now apply Q.min_l.
Qed.

Lemma Qclip_stop (x h : Q) : (0 <= x <= h)%Q -> (Qmax 0 (Qmin x h) == x)%Q.
Proof.
  intros [H0 Hh]. rewrite (Q.min_l x h) by exact Hh. now apply Q.max_r.
Qed.

Lemma inject_Z_le (x y : Z) : x <= y -> (inject_Z x <= inject_Z y)%Q.
Proof. intros H. now rewrite <- Zle_Qle. Qed.

Lemma inject_Z_sub (x y : Z) : (inject_Z (x - y) == inject_Z x - inject_Z y)%Q.
Proof. unfold Z.sub. rewrite inject_Z_plus, inject_Z_opp. reflexivity. Qed.

Lemma axis_nonneg (start stop len : Z) (boundless : bool) :
  0 <= start <= stop ->
  Window.axis (inject_Z start) (inject_Z stop) (inject_Z len) boundless
    = Ok (inject_Z start, (inject_Z stop - inject_Z start)%Q).
Proof.
  intros [H0 H1]. unfold Window.axis.
  assert (Hs : (0 <= inject_Z start)%Q) by (now apply (inject_Z_le 0)).
  assert (Ht : (0 <= inject_Z stop)%Q) by (apply (inject_Z_le 0); lia).
  assert (Hd : (0 <= inject_Z stop - inject_Z start)%Q).
  { pose proof (inject_Z_le _ _ H1). lra. }
  rewrite (Qmax_0_r _ Hd).
  destruct boundless; [reflexivity|].
  apply Qleb_true in Hs, Ht. now rewrite Hs, Ht.
Qed.

Lemma evaluate_nonneg (r0 r1 c0 c1 h w : Z) :
  0 <= r0 <= r1 -> 0 <= c0 <= c1 ->
  evaluate ((r0, r1), (c0, c1)) (inject_Z h) (inject_Z w)
    = Ok (Window.mk (inject_Z c0) (inject_Z r0)
            (inject_Z c1 - inject_Z c0) (inject_Z r1 - inject_Z r0)).
Proof.
  intros Hr Hc. unfold evaluate, window_to_Q, Window.from_slices.
  cbn [fst snd].
  rewrite (axis_nonneg r0 r1 h false Hr), (axis_nonneg c0 c1 w false Hc).
  reflexivity.
Qed.

Lemma rowcol_ok (T : Affine.t) (x y : Q) :
  Affine.is_degenerate T = false ->
  exists row col, rowcol T x y = Ok (row, col) /\
    pt_eq (Affine.apply T (col, row)) (x, y).
Proof.
  intros Hdet. destruct (invert_ok T Hdet) as (inv & Hinv & Hround).
  unfold rowcol. rewrite Hinv. unfold bind, Ok. cbv beta iota.
  destruct (Hround (x, y)) as [Hxy _].
  destruct (Affine.apply inv (x, y)) as [fcol frow].
  exists frow, fcol. split; [reflexivity|exact Hxy].
Qed.

(** The destination window computed by [chop_roi] is the whole of the new
    file: offsets 0 and the size of the source window. *)
Lemma dst_window_whole (T : Affine.t) (r0 r1 c0 c1 : Z) :
  Affine.is_degenerate T = false -> axis_aligned T ->
  0 <= r0 <= r1 -> 0 <= c0 <= c1 ->
  exists b T' win,
    bounds ((r0, r1), (c0, c1)) T = Ok b /\
    window_transform ((r0, r1), (c0, c1)) T = Ok T' /\
    from_bounds b T' = Ok win /\
    Window.round_offsets (Window.round_shape win)
      = Window.mk (inject_Z 0) (inject_Z 0)
          (inject_Z (c1 - c0)) (inject_Z (r1 - r0)).
Proof.
  intros Hdet [Hb Hd] Hr Hc.
  unfold bounds, window_transform.
  pose proof (evaluate_nonneg r0 r1 c0 c1 0 0 Hr Hc) as Hev.
  change (inject_Z 0) with 0%Q in Hev. rewrite Hev. clear Hev.
  unfold bind, Ok. cbv beta iota.
  cbn [Window.row_off Window.col_off Window.width Window.height].
  destruct (Affine.apply T (inject_Z c0, (inject_Z r0 + (inject_Z r1 - inject_Z r0))%Q))
    as [left_ bottom_] eqn:Elb.
  destruct (Affine.apply T ((inject_Z c0 + (inject_Z c1 - inject_Z c0))%Q, inject_Z r0))
    as [right_ top_] eqn:Ert.
  destruct (Affine.apply T (inject_Z c0, inject_Z r0)) as [x0 y0] eqn:E0.
  set (T' := Affine.mul _ T).
  assert (Hdet' : Affine.is_degenerate T' = false).
  { apply Qeqb_false. apply Qeqb_false in Hdet. intros E. apply Hdet.
    rewrite <- E. subst T'. destruct T as [a b c d e f].
    unfold Affine.determinant. simpl. ring. }
  destruct (rowcol_ok T' left_ top_ Hdet') as (rs & cs & Hs & Ps).
  destruct (rowcol_ok T' right_ bottom_ Hdet') as (re & ce & He & Pe).
  assert (Qs : pt_eq (cs, rs) (0, 0)%Q).
  { apply (apply_injective T' _ _ Hdet').
    destruct Ps as [Ps1 Ps2]. split; [rewrite Ps1 | rewrite Ps2];
      subst T'; destruct T as [a b c d e f]; simpl in *;
      injection Elb as <- <-; injection Ert as <- <-; injection E0 as <- <-;
      rewrite ?Hb, ?Hd; ring. }
  assert (Qe : pt_eq (ce, re)
                 ((inject_Z c1 - inject_Z c0)%Q, (inject_Z r1 - inject_Z r0)%Q)).
  { apply (apply_injective T' _ _ Hdet').
    destruct Pe as [Pe1 Pe2]. split; [rewrite Pe1 | rewrite Pe2];
      subst T'; destruct T as [a b c d e f]; simpl in *;
      injection Elb as <- <-; injection Ert as <- <-; injection E0 as <- <-;
      rewrite ?Hb, ?Hd; ring. }
  destruct Qs as [Qs1 Qs2]. destruct Qe as [Qe1 Qe2]. simpl in Qs1, Qs2, Qe1, Qe2.
  pose proof (inject_Z_le _ _ (proj2 Hr)) as Hrq.
  pose proof (inject_Z_le _ _ (proj2 Hc)) as Hcq.
  exists (left_, bottom_, right_, top_), T'.
  eexists. split; [reflexivity|]. split; [reflexivity|].
  unfold from_bounds. rewrite Hs. unfold bind at 1. unfold Ok at 1.
  cbv beta iota. rewrite He. unfold bind at 1. unfold Ok at 1. cbv beta iota.
  unfold Window.from_slices, Window.axis, bind, Ok. cbv beta iota.
  cbn [fst snd].
  rewrite (Qmax_0_r (re - rs)) by lra.
  rewrite (Qmax_0_r (ce - cs)) by lra.
  split; [reflexivity|].
  unfold Window.round_offsets, Window.round_shape, py_floor, py_ceil.
  cbn [Window.row_off Window.col_off Window.width Window.height].
  assert (Ew : (ce - cs == inject_Z (c1 - c0))%Q) by (rewrite inject_Z_sub; lra).
  assert (Eh : (re - rs == inject_Z (r1 - r0))%Q) by (rewrite inject_Z_sub; lra).
  rewrite Ew, Eh, Qs1, Qs2. rewrite !Qceiling_Z.
  change 0%Q with (inject_Z 0). rewrite !Qfloor_Z. reflexivity.
Qed.


Lemma read_inside (src : Raster) (r0 r1 c0 c1 : Z) :
  0 <= r0 <= r1 -> r1 <= height src -> 0 <= c0 <= c1 -> c1 <= width src ->
  read src ((r0, r1), (c0, c1))
    = Ok (slice2 (band1 src) r0 (r1 - r0) c0 (c1 - c0)).
Proof.
  intros Hr Hr1 Hc Hc1. unfold read, window_to_Q, Window.from_slices.
  cbn [fst snd].
  rewrite (axis_nonneg r0 r1 (height src) false Hr),
          (axis_nonneg c0 c1 (width src) false Hc).
  unfold bind, Ok. cbv beta iota. unfold crop.
  cbn [Window.row_off Window.col_off Window.width Window.height].
  pose proof (inject_Z_le _ _ (proj1 Hr)) as A1.
  pose proof (inject_Z_le _ _ (proj2 Hr)) as A2.
  pose proof (inject_Z_le _ _ Hr1) as A3.
  pose proof (inject_Z_le _ _ (proj1 Hc)) as B1.
  pose proof (inject_Z_le _ _ (proj2 Hc)) as B2.
  pose proof (inject_Z_le _ _ Hc1) as B3.
  change (inject_Z 0) with 0%Q in A1, B1.
  rewrite (Qclip_offset (inject_Z r0) (inject_Z (height src))) by lra.
  rewrite (Qclip_offset (inject_Z c0) (inject_Z (width src))) by lra.
  rewrite (Qclip_stop (inject_Z r0 + (inject_Z r1 - inject_Z r0))
             (inject_Z (height src))) by lra.
  rewrite (Qclip_stop (inject_Z c0 + (inject_Z c1 - inject_Z c0))
             (inject_Z (width src))) by lra.
  assert (Eh : (inject_Z r0 + (inject_Z r1 - inject_Z r0) - inject_Z r0
                == inject_Z (r1 - r0))%Q) by (rewrite inject_Z_sub; ring).
  assert (Ew : (inject_Z c0 + (inject_Z c1 - inject_Z c0) - inject_Z c0
                == inject_Z (c1 - c0))%Q) by (rewrite inject_Z_sub; ring).
  rewrite Eh, Ew. rewrite !py_int_inject_Z. reflexivity.
Qed.

Lemma slice2_length (data : list (list Z)) (r0 h c0 w : Z) :
  0 <= r0 -> 0 <= h -> r0 + h <= Z.of_nat (length data) ->
  Z.of_nat (length (slice2 data r0 h c0 w)) = h.
Proof.
  intros H0 Hh Hle. unfold slice2.
  rewrite length_map, length_take, length_drop. lia.
Qed.

Lemma slice2_lookup (data : list (list Z)) (r0 h c0 w : Z) (i : nat) :
  0 <= r0 -> (Z.of_nat i < h) ->
  slice2 data r0 h c0 w !! i
    = (fun row => take (Z.to_nat w) (drop (Z.to_nat c0) row))
        <$> data !! (Z.to_nat r0 + i)%nat.
Proof.
  intros H0 Hi. unfold slice2.
  rewrite list_lookup_fmap. rewrite lookup_take_lt by lia.
  now rewrite lookup_drop.
Qed.

Lemma write_row_whole (new old : list Z) :
  length old = length new -> write_row 0 new old = new.
Proof.
  intros Hlen. unfold write_row. rewrite take_0. simpl.
  rewrite drop_ge by lia. apply app_nil_r.
Qed.

Lemma zip_with_write_row_whole (arr data : list (list Z)) :
  Forall2 (fun new old => length old = length new) arr data ->
  zip_with (write_row 0) arr data = arr.
Proof.
  induction 1 as [|new old arr data Hlen _ IH]; [reflexivity|].
  simpl. now rewrite (write_row_whole _ _ Hlen), IH.
Qed.

(** Writing an array over the whole of a dataset of its shape leaves the
    array as the dataset's content. *)
Lemma write_rows_whole (arr data : list (list Z)) :
  Forall2 (fun new old => length old = length new) arr data ->
  write_rows 0 0 arr data = arr.
Proof.
  intros Hall. unfold write_rows. rewrite take_0, drop_0. simpl.
  rewrite (zip_with_write_row_whole _ _ Hall).
  rewrite drop_ge; [apply app_nil_r|].
  apply Forall2_length in Hall. lia.
Qed.


Lemma raster_shape_ok_spec (r : Raster) :
  raster_shape_ok r = true ->
  Z.of_nat (length (band1 r)) = height r /\
  Forall (fun row => Z.of_nat (length row) = width r) (band1 r).
Proof.
  unfold raster_shape_ok. intros H. apply andb_true_iff in H as [H1 H2].
  apply bool_decide_eq_true in H1. split; [exact H1|].
  apply Forall_forall. intros row Hin.
  rewrite forallb_forall in H2. apply list_elem_of_In in Hin.
  specialize (H2 row Hin). now apply bool_decide_eq_true in H2.
Qed.

Lemma slice2_rows (data : list (list Z)) (r0 h c0 w wd : Z) :
  Forall (fun row => Z.of_nat (length row) = wd) data ->
  0 <= c0 -> 0 <= w -> c0 + w <= wd ->
  Forall (fun row => Z.of_nat (length row) = w) (slice2 data r0 h c0 w).
Proof.
  intros Hall H0 Hw Hle. unfold slice2. apply Forall_fmap.
  apply Forall_take, Forall_drop.
  eapply Forall_impl; [exact Hall|]. intros row Hrow. simpl in *.
  rewrite length_take, length_drop. lia.
Qed.

(** On an axis-aligned tile, for a window within the tile that is not
    empty, [chop_roi] writes exactly the pixels under the window. *)
Lemma chop_roi_crop (src : Raster) (region : Region) (r0 r1 c0 c1 : Z) :
  raster_shape_ok src = true ->
  Affine.is_degenerate (transform src) = false ->
  axis_aligned (transform src) ->
  window_from_extent (lonmin region) (lonmax region)
    (latmin region) (latmax region) (transform src)
    = Ok ((r0, r1), (c0, c1)) ->
  0 <= r0 -> r0 < r1 -> r1 <= height src ->
  0 <= c0 -> c0 < c1 -> c1 <= width src ->
  exists T',
    chop_roi src region
      = Ok (mkRaster T' (r1 - r0) (c1 - c0)
              (slice2 (band1 src) r0 (r1 - r0) c0 (c1 - c0))).
Proof.
  intros Hshape Hdet Hax Hw Hr0 Hr Hr1 Hc0 Hc Hc1.
  destruct (raster_shape_ok_spec _ Hshape) as [Hlen Hrows].
  destruct (dst_window_whole (transform src) r0 r1 c0 c1 Hdet Hax)
    as (b & T' & win & Hb & HT & Hfb & Hwin); [lia|lia|].
  exists T'. unfold chop_roi. rewrite Hw. unfold bind at 1. unfold Ok at 1.
  cbv beta iota. rewrite Hb. unfold bind at 1. unfold Ok at 1. cbv beta iota.
  rewrite HT. unfold bind at 1. unfold Ok at 1. cbv beta iota.
  rewrite Hfb. unfold bind at 1. unfold Ok at 1. cbv beta iota.
  rewrite Hwin. cbn [fst snd].
  unfold create.
  assert (Hh : (0 <? r1 - r0) = true) by (apply Z.ltb_lt; lia).
  assert (Hwd : (0 <? c1 - c0) = true) by (apply Z.ltb_lt; lia).
  rewrite Hh, Hwd. cbn [andb]. unfold bind at 1. unfold Ok at 1.
  cbv beta iota.
  rewrite read_inside by lia. unfold bind at 1. unfold Ok at 1.
  cbv beta iota.
  unfold write.
  cbn [Window.row_off Window.col_off Window.width Window.height
       height width transform band1].
  rewrite !py_int_inject_Z.
  pose proof (slice2_length (band1 src) r0 (r1 - r0) c0 (c1 - c0)) as Hsl.
  pose proof (slice2_rows (band1 src) r0 (r1 - r0) c0 (c1 - c0) (width src)
                Hrows) as Hsr.
  assert (C1 : (0 <=? 0) = true) by reflexivity.
  assert (C2 : (0 + (r1 - r0) <=? r1 - r0) = true) by (apply Z.leb_le; lia).
  assert (C3 : (0 + (c1 - c0) <=? c1 - c0) = true) by (apply Z.leb_le; lia).
  rewrite C1, C2, C3. cbn [andb].
  rewrite bool_decide_eq_true_2 by (apply Hsl; lia). cbn [andb].
  assert (C4 : forallb
                 (fun row => bool_decide (Z.of_nat (length row) = c1 - c0))
                 (slice2 (band1 src) r0 (r1 - r0) c0 (c1 - c0)) = true).
  { apply forallb_forall. intros row Hin. apply bool_decide_eq_true.
    apply list_elem_of_In in Hin.
    assert (Hsr' := Hsr ltac:(lia) ltac:(lia) ltac:(lia)).
    rewrite Forall_forall in Hsr'. now apply Hsr'. }
  rewrite C4. unfold Ok. f_equal. f_equal.
  change (Z.to_nat 0) with 0%nat. apply write_rows_whole.
  apply Forall2_same_length_lookup_2.
  - rewrite length_replicate. specialize (Hsl ltac:(lia) ltac:(lia) ltac:(lia)).
    lia.
  - intros k new old Hnew Hold.
    apply lookup_replicate in Hold as [-> _]. rewrite length_replicate.
    assert (Hsr' := Hsr ltac:(lia) ltac:(lia) ltac:(lia)).
    rewrite Forall_lookup in Hsr'. specialize (Hsr' _ _ Hnew). lia.
Qed.

Lemma pixel_slice2 (src : Raster) (T' : Affine.t) (r0 r1 c0 c1 i j : Z) :
  raster_shape_ok src = true ->
  0 <= r0 -> r1 <= height src -> 0 <= c0 -> c1 <= width src ->
  r0 <= i < r1 -> c0 <= j < c1 ->
  is_Some (pixel src i j) /\
  pixel (mkRaster T' (r1 - r0) (c1 - c0)
           (slice2 (band1 src) r0 (r1 - r0) c0 (c1 - c0)))
        (i - r0) (j - c0)
    = pixel src i j.
Proof.
  intros Hshape Hr0 Hr1 Hc0 Hc1 Hi Hj.
  destruct (raster_shape_ok_spec _ Hshape) as [Hlen Hrows].
  unfold pixel. cbn [band1].
  assert (E1 : (0 <=? i) && (0 <=? j) = true).
  { apply andb_true_iff. split; apply Z.leb_le; lia. }
  assert (E2 : (0 <=? i - r0) && (0 <=? j - c0) = true).
  { apply andb_true_iff. split; apply Z.leb_le; lia. }
  rewrite E1, E2.
  replace (Z.to_nat (i - r0)) with (Z.to_nat i - Z.to_nat r0)%nat by lia.
  rewrite slice2_lookup by lia.
  replace (Z.to_nat r0 + (Z.to_nat i - Z.to_nat r0))%nat with (Z.to_nat i)
    by lia.
  destruct (lookup_lt_is_Some_2 (band1 src) (Z.to_nat i)) as [row Hrow];
    [lia|].
  rewrite Hrow. simpl.
  rewrite Forall_lookup in Hrows. specialize (Hrows _ _ Hrow).
  rewrite lookup_take_lt by lia. rewrite lookup_drop.
  replace (Z.to_nat c0 + Z.to_nat (j - c0))%nat with (Z.to_nat j) by lia.
  split; [|reflexivity].
  apply lookup_lt_is_Some_2. lia.
Qed.





(** ** Computations on the world *)

Lemma io_bind_ok {A B : Type} (m : io A) (k : A -> io B) (w w' : World) (y : B) :
  io_bind m k w = (w', inr y) ->
  exists w1 x, m w = (w1, inr x) /\ k x w1 = (w', inr y).
Proof.
  unfold io_bind. destruct (m w) as [w1 [e|x]]; [discriminate|].
  intros Hk. now exists w1, x.
Qed.

Lemma io_lift_ok {A : Type} (r : result A) (w w' : World) (x : A) :
  io_lift r w = (w', inr x) -> w' = w /\ r = Ok x.
Proof. unfold io_lift. intros [= <- ->]. now split. Qed.

Lemma io_ret_ok {A : Type} (x y : A) (w w' : World) :
  io_ret x w = (w', inr y) -> w' = w /\ y = x.
Proof. unfold io_ret, Ok. intros [= <- <-]. now split. Qed.

Lemma py_assert_ok (cond : bool) (msg : string) (w w' : World) (u : unit) :
  py_assert cond msg w = (w', inr u) -> cond = true /\ w' = w.
Proof.
  unfold py_assert. destruct cond; [|discriminate].
  intros H. apply io_ret_ok in H as [-> _]. now split.
Qed.

Lemma need_bounds_ok (method : string) (ds : Dataset) (w w' : World) (u : unit) :
  need_bounds method ds w = (w', inr u) -> w' = w.
Proof.
  unfold need_bounds. destruct (String.eqb method "conservative").
  - intros H. apply io_bind_ok in H as (w1 & x & H1 & H).
    apply io_lift_ok in H1 as [-> _].
    apply io_bind_ok in H as (w2 & x' & H2 & H).
    apply io_lift_ok in H2 as [-> _].
    now apply io_ret_ok in H as [-> _].
  - intros H. now apply io_ret_ok in H as [-> _].
Qed.

(** ** The weight file *)

Lemma write_weight_file_fresh (fname : string) (w : World) :
  write_weight_file fname false w
    = (mkWorld ({[fname]} ∪ files w)
         (journal w ++ (if bool_decide (fname ∈ files w)
                        then [Remove fname] else [])
          ++ [WriteWeights fname]), Ok tt).
Proof.
  unfold write_weight_file. rewrite andb_false_r.
  destruct (bool_decide (fname ∈ files w)) eqn:E; simpl.
  - f_equal. f_equal; [|now rewrite <- app_assoc].
    apply set_eq. intros x.
    rewrite !elem_of_union, elem_of_difference, elem_of_singleton.
    destruct (decide (x = fname)); tauto.
  - reflexivity.
Qed.

Lemma clean_weight_file_present (r : Regridder) (w : World) :
  filename r ∈ files w ->
  clean_weight_file r w
    = (mkWorld (files w ∖ {[filename r]}) (journal w ++ [Remove (filename r)]),
       Ok tt).
Proof.
  intros Hin. unfold clean_weight_file.
  now rewrite bool_decide_eq_true_2 by exact Hin.
Qed.


(** ** [regrid]: what a successful call went through *)

Lemma getitem_variable (ds : Dataset) (name : string) (v : xr_Variable) :
  variables ds !! name = Some v ->
  exists da, getitem ds name = Ok da /\ da_variable da = v.
Proof.
  intros Hv. unfold getitem. rewrite Hv. simpl. eexists. split; reflexivity.
Qed.

Lemma as_1d_ok (dim : string) (da : DataArray) (v : xr_Variable) :
  as_1d dim da = Ok v ->
  exists n, v_shape (da_variable da) = [n] /\
    v = mkVariable [(dim, n)] (v_numeric (da_variable da))
          (v_values (da_variable da)).
Proof.
  unfold as_1d. destruct (v_shape (da_variable da)) as [|n [|? ?]];
    try discriminate.
  intros [= <-]. now exists n.
Qed.

Section Regrid.

Context `{ESMF}.

Lemma Regridder_init_ok (ds_in : Dataset) (out_lat out_lon : xr_Variable)
    (method fname : string) (w w1 : World) (r : Regridder) :
  Regridder_init ds_in (ds_out_of out_lat out_lon) method fname false w
    = (w1, Ok r) ->
  w1 = fst (write_weight_file fname false w) /\
  filename r = fname /\ lat_out r = out_lat /\ lon_out r = out_lon /\
  rg_method r = method /\
  grid_shape out_lat out_lon = Ok (Ny_out r, Nx_out r) /\
  exists lat_in lon_in,
    getitem ds_in "lat" = Ok lat_in /\ getitem ds_in "lon" = Ok lon_in /\
    grid_shape (da_variable lat_in) (da_variable lon_in)
      = Ok (Ny_in r, Nx_in r) /\
    weights r = esmf_regrid_build method (da_variable lat_in)
                  (da_variable lon_in) out_lat out_lon.
Proof.
  unfold Regridder_init. intros H0.
  apply io_bind_ok in H0 as (w2 & lon_in & H1 & H0).
  apply io_lift_ok in H1 as [-> Hlon_in].
  apply io_bind_ok in H0 as (w2 & lat_in & H1 & H0).
  apply io_lift_ok in H1 as [-> Hlat_in].
  apply io_bind_ok in H0 as (w2 & u1 & H1 & H0).
  apply need_bounds_ok in H1 as ->.
  apply io_bind_ok in H0 as (w2 & shape_in & H1 & H0).
  apply io_lift_ok in H1 as [-> Hshape_in].
  apply io_bind_ok in H0 as (w2 & lon_o & H1 & H0).
  apply io_lift_ok in H1 as [-> Hlon_o].
  apply io_bind_ok in H0 as (w2 & lat_o & H1 & H0).
  apply io_lift_ok in H1 as [-> Hlat_o].
  apply io_bind_ok in H0 as (w2 & u2 & H1 & H0).
  apply need_bounds_ok in H1 as ->.
  apply io_bind_ok in H0 as (w2 & shape_out & H1 & H0).
  apply io_lift_ok in H1 as [-> Hshape_out].
  apply io_bind_ok in H0 as (w2 & u3 & H1 & H0).
  apply io_ret_ok in H0 as [-> ->].
  destruct (getitem_variable (ds_out_of out_lat out_lon) "lat" out_lat)
    as (da1 & Hda1 & Hv1); [reflexivity|].
  destruct (getitem_variable (ds_out_of out_lat out_lon) "lon" out_lon)
    as (da2 & Hda2 & Hv2); [reflexivity|].
  rewrite Hda1 in Hlat_o. rewrite Hda2 in Hlon_o.
  injection Hlat_o as <-. injection Hlon_o as <-.
  rewrite Hv1, Hv2 in *. simpl.
  split; [now rewrite H1|].
  destruct shape_in as [ny nx]. destruct shape_out as [ny' nx']. simpl.
  repeat split; try assumption.
  exists lat_in, lon_in. repeat split; assumption.
Qed.

Lemma regrid_ok (self : BasePreProcessor) (ds reference_ds : Dataset)
    (method : string) (w w' : World) (out : Dataset) :
  regrid self ds reference_ds method w = (w', Ok out) ->
  exists t, regrid_run self ds reference_ds method w w' out t.
Proof.
  unfold regrid. intros H0.
  apply io_bind_ok in H0 as (w1 & u1 & H1 & H0).
  apply py_assert_ok in H1 as [Hrefdims ->].
  apply io_bind_ok in H0 as (w1 & u2 & H1 & H0).
  apply py_assert_ok in H1 as [Hdsdims ->].
  apply io_bind_ok in H0 as (w1 & u3 & H1 & H0).
  apply py_assert_ok in H1 as [Hmethod ->].
  apply io_bind_ok in H0 as (w1 & ref_lat & H1 & H0).
  apply io_lift_ok in H1 as [-> Href_lat].
  apply io_bind_ok in H0 as (w1 & ref_lon & H1 & H0).
  apply io_lift_ok in H1 as [-> Href_lon].
  apply io_bind_ok in H0 as (w1 & out_lat & H1 & H0).
  apply io_lift_ok in H1 as [-> Hout_lat].
  apply io_bind_ok in H0 as (w1 & out_lon & H1 & H0).
  apply io_lift_ok in H1 as [-> Hout_lon].
  apply io_bind_ok in H0 as (w1 & ds_lat & H1 & H0).
  apply io_lift_ok in H1 as [-> Hds_lat].
  apply io_bind_ok in H0 as (w1 & ds_lon & H1 & H0).
  apply io_lift_ok in H1 as [-> Hds_lon].
  apply io_bind_ok in H0 as (w1 & ny_in & H1 & H0).
  apply io_lift_ok in H1 as [-> Hny_in].
  apply io_bind_ok in H0 as (w1 & nx_in & H1 & H0).
  apply io_lift_ok in H1 as [-> Hnx_in].
  apply io_bind_ok in H0 as (w1 & ny_out & H1 & H0).
  apply io_lift_ok in H1 as [-> Hny_out].
  apply io_bind_ok in H0 as (w1 & nx_out & H1 & H0).
  apply io_lift_ok in H1 as [-> Hnx_out].
  apply io_bind_ok in H0 as (w1 & r & Hinit & H0).
  apply io_bind_ok in H0 as (w2 & d & H1 & H0).
  apply io_lift_ok in H1 as [-> Hloop].
  apply io_bind_ok in H0 as (w2 & u4 & Hclean & H0).
  apply io_ret_ok in H0 as [-> ->].
  apply (Regridder_init_ok ds out_lat out_lon) in Hinit
    as (-> & Hfn & Hlat & Hlon & _ & Hgs & _).
  rewrite write_weight_file_fresh in Hclean. simpl in Hclean.
  rewrite clean_weight_file_present in Hclean
    by (simpl; rewrite Hfn; apply elem_of_union_l, elem_of_singleton;
        reflexivity).
  injection Hclean as <-. simpl.
  apply as_1d_ok in Hout_lat as (n1 & Hs1 & ->).
  apply as_1d_ok in Hout_lon as (n2 & Hs2 & ->).
  assert (n1 = ny_out) as ->.
  { unfold len in Hny_out. rewrite Hs1 in Hny_out. now injection Hny_out. }
  assert (n2 = nx_out) as ->.
  { unfold len in Hnx_out. rewrite Hs2 in Hnx_out. now injection Hnx_out. }
  apply andb_true_iff in Hrefdims, Hdsdims.
  apply bool_decide_eq_true in Hmethod.
  unfold grid_shape in Hgs. simpl in Hgs. injection Hgs as Hny Hnx.
  exists (mkTrace ref_lat ref_lon ds_lat ds_lon (ny_in, nx_in)
            (ny_out, nx_out) r d).
  constructor;
    simpl; try assumption; try (split; assumption); try reflexivity;
    try (split; congruence).
  - rewrite Hfn. apply set_eq. intros x.
    rewrite !elem_of_difference, elem_of_union, elem_of_singleton.
    destruct (decide (x = path_join (interim_folder self)
                (weight_filename method (ny_in, nx_in) (ny_out, nx_out))));
      tauto.
  - rewrite Hfn. now rewrite <- !app_assoc.
Qed.

End Regrid.


(** ** The loop over the variables *)

Lemma Regridder_call_ok (r : Regridder) (da o : DataArray) :
  Regridder_call r da = Ok o ->
  last2 (v_shape (da_variable da)) = [Ny_in r; Nx_in r] /\
  da_variable o
    = mkVariable
        (but_last2 (v_sizes (da_variable da))
         ++ [(fst (out_horiz_dims r), Ny_out r);
             (snd (out_horiz_dims r), Nx_out r)])
        true (weights r (v_values (da_variable da))) /\
  da_coords o !! "lat" = Some (lat_out r) /\
  da_coords o !! "lon" = Some (lon_out r) /\
  forall k c, da_coords o !! k = Some c -> k <> "lat" -> k <> "lon" ->
    da_coords da !! k = Some c.
Proof.
  unfold Regridder_call.
  destruct (bool_decide (last2 (v_shape (da_variable da))
                         = [Ny_in r; Nx_in r])) eqn:E; [|discriminate].
  apply bool_decide_eq_true in E. simpl. intros [= <-]. simpl.
  split; [exact E|]. split; [reflexivity|].
  split; [apply lookup_insert_eq|].
  split; [rewrite lookup_insert_ne by discriminate; apply lookup_insert_eq|].
  intros k c Hk Hlat Hlon.
  rewrite !lookup_insert_ne in Hk by congruence.
  now apply map_lookup_filter_Some in Hk as [Hk _].
Qed.

Lemma regrid_variables_ok (r : Regridder) (ds : Dataset) (vars : list string)
    (d0 d : gmap string DataArray) :
  regrid_variables r ds vars d0 = Ok d ->
  (forall n, n ∈ vars ->
     exists da o, getitem ds n = Ok da /\ Regridder_call r da = Ok o /\
       d !! n = Some o) /\
  (forall n, n ∉ vars -> d !! n = d0 !! n).
Proof.
  revert d0. induction vars as [|var rest IH]; intros d0 Hrun.
  - simpl in Hrun. injection Hrun as <-. split.
    + intros n Hn. inversion Hn.
    + reflexivity.
  - simpl in Hrun. unfold bind in Hrun.
    destruct (getitem ds var) as [e|da] eqn:Hget; [discriminate|].
    destruct (Regridder_call r da) as [e|o] eqn:Hcall; [discriminate|].
    destruct (IH _ Hrun) as [IHin IHout]. split.
    + intros n Hn. destruct (decide (n ∈ rest)) as [Hrest|Hrest].
      * now apply IHin.
      * apply elem_of_cons in Hn as [->|Hn]; [|contradiction].
        exists da, o. repeat split; try assumption.
        rewrite (IHout _ Hrest). apply lookup_insert_eq.
    + intros n Hn. apply not_elem_of_cons in Hn as [Hne Hrest].
      rewrite (IHout _ Hrest). now apply lookup_insert_ne.
Qed.

(** The names [regrid] loops over: scalar coordinates and numeric data
    variables. *)
Lemma ds_var_keys (ds : Dataset) (n : string) :
  n ∈ (map_to_list (variables (ds_var ds))).*1 <->
  exists v, variables ds !! n = Some v /\
    (((n ∈ coord_names ds) /\ v_sizes v = []) \/
     ((n ∉ coord_names ds) /\ v_numeric v = true)).
Proof.
  rewrite list_elem_of_fmap. split.
  - intros ([k x] & -> & Hin). simpl.
    apply elem_of_map_to_list in Hin. simpl in Hin.
    rewrite map_lookup_imap in Hin.
    destruct (variables ds !! k) as [v|] eqn:Hv; [|discriminate].
    simpl in Hin. exists v. split; [reflexivity|].
    destruct (bool_decide (k ∈ coord_names ds)) eqn:Hc.
    + apply bool_decide_eq_true in Hc. left. split; [exact Hc|].
      destruct (v_sizes v); [reflexivity|discriminate].
    + apply bool_decide_eq_false in Hc. right. split; [exact Hc|].
      destruct (v_numeric v); [reflexivity|discriminate].
  - intros (v & Hv & Hcase).
    assert (Hsome : is_Some (variables (ds_var ds) !! n)).
    { simpl. rewrite map_lookup_imap, Hv. simpl.
      destruct Hcase as [[Hc Hs]|[Hc Hnum]].
      - rewrite bool_decide_eq_true_2 by exact Hc. rewrite Hs. eauto.
      - rewrite bool_decide_eq_false_2 by exact Hc. rewrite Hnum. eauto. }
    destruct Hsome as [x Hx]. exists (n, x). split; [reflexivity|].
    now apply elem_of_map_to_list.
Qed.

(** A dimension of the dataset is a dimension of one of its variables. *)
Lemma elem_of_dims (ds : Dataset) (dim : string) :
  dim ∈ dom (dims ds) <->
  exists k v, variables ds !! k = Some v /\ dim ∈ v_dims v.
Proof.
  unfold dims, calculate_dimensions.
  apply (map_fold_weak_ind
           (fun (r : gmap string nat) (m : gmap string xr_Variable) =>
              dim ∈ dom r <->
              exists k v, m !! k = Some v /\ dim ∈ v_dims v)).
  - rewrite dom_empty_L. split; [intros Hin; now apply not_elem_of_empty in Hin|].
    intros (k & v & Hk & _). now rewrite lookup_empty in Hk.
  - intros k v m r Hfresh IH. rewrite dom_union_L, elem_of_union, IH.
    unfold var_sizes. rewrite dom_list_to_map_L, elem_of_list_to_set.
    fold (v_dims v). split.
    + intros [Hin|(k' & v' & Hk' & Hin)].
      * exists k, v. split; [apply lookup_insert_eq|exact Hin].
      * exists k', v'. split; [|exact Hin].
        rewrite lookup_insert_ne; [exact Hk'|]. intros ->. congruence.
    + intros (k' & v' & Hk' & Hin).
      destruct (decide (k = k')) as [<-|Hne].
      * rewrite lookup_insert_eq in Hk'. injection Hk' as <-. now left.
      * rewrite lookup_insert_ne in Hk' by exact Hne. right. eauto.
Qed.

(** A variable that is not a coordinate does not bear a dimension's name. *)
Lemma data_var_not_dim (ds : Dataset) (n : string) (v : xr_Variable) :
  variables ds !! n = Some v -> n ∉ coord_names ds -> n ∉ dom (dims ds).
Proof.
  intros Hv Hnc Hdim. apply Hnc. unfold coord_names.
  apply elem_of_filter. split; [now right|].
  apply elem_of_dom. eauto.
Qed.


Lemma getitem_ok (ds : Dataset) (n : string) (da : DataArray) :
  getitem ds n = Ok da ->
  (forall v, variables ds !! n = Some v -> da_variable da = v) /\
  (forall k c, da_coords da !! k = Some c -> variables ds !! k = Some c).
Proof.
  unfold getitem. intros Hget. split.
  - intros v Hv. rewrite Hv in Hget. simpl in Hget. now injection Hget as <-.
  - intros k c Hk.
    destruct (variables ds !! n) as [v|].
    + simpl in Hget. injection Hget as <-. simpl in Hk.
      apply map_lookup_filter_Some in Hk as [Hk _].
      now apply map_lookup_filter_Some in Hk as [Hk _].
    + destruct (dims ds !! n); [|discriminate].
      simpl in Hget. injection Hget as <-. simpl in Hk.
      apply map_lookup_filter_Some in Hk as [Hk _].
      now apply map_lookup_filter_Some in Hk as [Hk _].
Qed.

Lemma merged_coords_lookup (d : gmap string DataArray) (k : string)
    (c : xr_Variable) :
  merged_coords d !! k = Some c ->
  exists n o, d !! n = Some o /\ da_coords o !! k = Some c.
Proof.
  unfold merged_coords. revert k c.
  apply (map_fold_weak_ind
           (fun (r : gmap string xr_Variable) (m : gmap string DataArray) =>
              forall k c, r !! k = Some c ->
                exists n o, m !! n = Some o /\ da_coords o !! k = Some c)).
  - intros k c Hk. now rewrite lookup_empty in Hk.
  - intros i x m r Hfresh IH k c Hk.
    apply lookup_union_Some_raw in Hk as [Hk|[_ Hk]].
    + exists i, x. split; [apply lookup_insert_eq|exact Hk].
    + destruct (IH _ _ Hk) as (n & o & Hn & Ho). exists n, o.
      split; [|exact Ho]. rewrite lookup_insert_ne; [exact Hn|].
      intros ->. congruence.
Qed.

Lemma merged_coords_common (d : gmap string DataArray) (k : string)
    (c : xr_Variable) :
  d <> ∅ ->
  (forall n o, d !! n = Some o -> da_coords o !! k = Some c) ->
  merged_coords d !! k = Some c.
Proof.
  unfold merged_coords.
  apply (map_fold_weak_ind
           (fun (r : gmap string xr_Variable) (m : gmap string DataArray) =>
              m <> ∅ ->
              (forall n o, m !! n = Some o -> da_coords o !! k = Some c) ->
              r !! k = Some c)).
  - intros Hne. now contradiction Hne.
  - intros i x m r Hfresh IH _ Hall.
    apply lookup_union_Some_raw. left.
    apply (Hall i x). apply lookup_insert_eq.
Qed.

Lemma last2_nil_ne {A : Type} (x y : A) : last2 (@nil A) <> [x; y].
Proof. discriminate. Qed.

Lemma elem_of_but_last2 {A : Type} (x : A) (l : list A) :
  x ∈ but_last2 l -> x ∈ l.
Proof. unfold but_last2. apply subseteq_take. Qed.


(** ** The dataset [regrid] returns *)

Section Run.

Variables (self : BasePreProcessor) (ds reference_ds : Dataset)
          (method : string) (w w' : World) (out : Dataset)
          (t : regrid_trace).
Hypothesis Hrun : regrid_run self ds reference_ds method w w' out t.

Lemma run_horiz : out_horiz_dims (run_regridder t) = ("lat", "lon").
Proof.
  unfold out_horiz_dims. now rewrite (run_lat_out _ _ _ _ _ _ _ _ Hrun).
Qed.

Lemma run_dict_None (k : string) :
  k ∉ (map_to_list (variables (ds_var ds))).*1 -> run_dict t !! k = None.
Proof.
  intros Hk.
  destruct (regrid_variables_ok _ _ _ _ _ (run_loop _ _ _ _ _ _ _ _ Hrun))
    as [_ Hout].
  rewrite (Hout _ Hk). apply lookup_empty.
Qed.

Lemma run_dict_entry (k : string) (o : DataArray) :
  run_dict t !! k = Some o ->
  exists v_in, variables ds !! k = Some v_in /\
    (k ∉ coord_names ds) /\ v_numeric v_in = true /\
    da_variable o = regridded t v_in /\
    da_coords o !! "lat" = Some (lat_out (run_regridder t)) /\
    da_coords o !! "lon" = Some (lon_out (run_regridder t)) /\
    forall k' c, da_coords o !! k' = Some c -> k' <> "lat" -> k' <> "lon" ->
      variables ds !! k' = Some c.
Proof.
  intros Hk.
  destruct (decide (k ∈ (map_to_list (variables (ds_var ds))).*1))
    as [Hin|Hnin]; [|rewrite (run_dict_None _ Hnin) in Hk; discriminate].
  destruct (regrid_variables_ok _ _ _ _ _ (run_loop _ _ _ _ _ _ _ _ Hrun))
    as [Hloop _].
  destruct (Hloop _ Hin) as (da & o' & Hget & Hcall & Hk').
  rewrite Hk in Hk'. injection Hk' as <-.
  apply ds_var_keys in Hin as (v_in & Hv & Hcase).
  destruct (getitem_ok _ _ _ Hget) as [Hvar Hcoords].
  specialize (Hvar _ Hv).
  apply Regridder_call_ok in Hcall as (Hshape & Hov & Hlat & Hlon & Hkept).
  rewrite Hvar in Hshape, Hov.
  exists v_in. split; [exact Hv|].
  destruct Hcase as [[_ Hscalar]|[Hnc Hnum]].
  { unfold v_shape in Hshape. rewrite Hscalar in Hshape. discriminate. }
  split; [exact Hnc|]. split; [exact Hnum|]. split.
  - rewrite Hov, run_horiz. unfold regridded. simpl.
    destruct (run_N_out _ _ _ _ _ _ _ _ Hrun) as [-> ->]. reflexivity.
  - split; [exact Hlat|]. split; [exact Hlon|].
    intros k' c Hc Hn1 Hn2. apply Hcoords. now apply Hkept.
Qed.

Lemma run_dict_dom (k : string) (v_in : xr_Variable) :
  variables ds !! k = Some v_in -> k ∉ coord_names ds ->
  v_numeric v_in = true ->
  is_Some (run_dict t !! k).
Proof.
  intros Hv Hnc Hnum.
  assert (Hin : k ∈ (map_to_list (variables (ds_var ds))).*1).
  { apply ds_var_keys. exists v_in. split; [exact Hv|]. now right. }
  destruct (regrid_variables_ok _ _ _ _ _ (run_loop _ _ _ _ _ _ _ _ Hrun))
    as [Hloop _].
  destruct (Hloop _ Hin) as (da & o & _ & _ & Hk). eauto.
Qed.

Lemma run_lat_lon_dims : "lat" ∈ dom (dims ds) /\ "lon" ∈ dom (dims ds).
Proof.
  destruct (run_ds_dims _ _ _ _ _ _ _ _ Hrun) as [H1 H2].
  unfold in_dims in H1, H2.
  apply bool_decide_eq_true in H1, H2. now split.
Qed.

Lemma variable_dims (k dim : string) (v : xr_Variable) :
  variables ds !! k = Some v -> dim ∈ v_dims v -> dim ∈ dom (dims ds).
Proof. intros Hv Hdim. apply elem_of_dims. eauto. Qed.

(** Every dimension of the output is a dimension of the input. *)
Lemma run_dims_out (dim : string) :
  out = Dataset_of_dict (run_dict t) ->
  dim ∈ dom (dims out) -> dim ∈ dom (dims ds).
Proof.
  intros Hout Hdim. destruct run_lat_lon_dims as [Hlat Hlon].
  apply elem_of_dims in Hdim as (k & v & Hk & Hin).
  rewrite Hout in Hk. simpl in Hk.
  apply lookup_union_Some_raw in Hk as [Hk|[_ Hk]].
  - rewrite lookup_fmap in Hk.
    destruct (run_dict t !! k) as [o|] eqn:Ho; [|discriminate].
    simpl in Hk. injection Hk as <-.
    destruct (run_dict_entry _ _ Ho) as (v_in & Hv & _ & _ & Hov & _).
    rewrite Hov in Hin. unfold v_dims, regridded in Hin. simpl in Hin.
    rewrite fmap_app in Hin. apply elem_of_app in Hin as [Hin|Hin].
    + apply (variable_dims k _ v_in Hv). unfold v_dims.
      apply list_elem_of_fmap in Hin as (p & -> & Hp).
      apply list_elem_of_fmap. exists p. split; [reflexivity|].
      now apply elem_of_but_last2.
    + simpl in Hin. apply elem_of_cons in Hin as [->|Hin]; [exact Hlat|].
      apply elem_of_cons in Hin as [->|Hin]; [exact Hlon|].
      inversion Hin.
  - apply merged_coords_lookup in Hk as (n & o & Ho & Hc).
    destruct (run_dict_entry _ _ Ho)
      as (v_in & _ & _ & _ & _ & Hclat & Hclon & Hrest).
    destruct (decide (k = "lat")) as [->|Hn1].
    { rewrite Hclat in Hc. injection Hc as <-.
      rewrite (run_lat_out _ _ _ _ _ _ _ _ Hrun) in Hin.
      unfold v_dims in Hin. simpl in Hin.
      apply list_elem_of_singleton in Hin as ->. exact Hlat. }
    destruct (decide (k = "lon")) as [->|Hn2].
    { rewrite Hclon in Hc. injection Hc as <-.
      rewrite (run_lon_out _ _ _ _ _ _ _ _ Hrun) in Hin.
      unfold v_dims in Hin. simpl in Hin.
      apply list_elem_of_singleton in Hin as ->. exact Hlon. }
    apply (variable_dims k _ v); [|exact Hin]. now apply Hrest.
Qed.

(** The data variables of the output are the numeric data variables of
    the input, each regridded with the one regridder of the call. *)
Lemma run_output_vars (k : string) (v : xr_Variable) :
  data_vars out !! k = Some v <->
  exists v_in, data_vars ds !! k = Some v_in /\ v_numeric v_in = true /\
    v = regridded t v_in.
Proof.
  pose proof (run_out _ _ _ _ _ _ _ _ Hrun) as Hout.
  unfold data_vars at 1. rewrite map_lookup_filter_Some. simpl. split.
  - intros [Hk Hnc]. rewrite Hout in Hk. simpl in Hk.
    apply lookup_union_Some_raw in Hk as [Hk|[Hnone Hk]].
    + rewrite lookup_fmap in Hk.
      destruct (run_dict t !! k) as [o|] eqn:Ho; [|discriminate].
      simpl in Hk. injection Hk as <-.
      destruct (run_dict_entry _ _ Ho) as (v_in & Hv & Hncds & Hnum & Hov & _).
      exists v_in. split; [|now split].
      unfold data_vars. apply map_lookup_filter_Some. now split.
    + exfalso. apply Hnc. rewrite Hout. unfold coord_names. simpl.
      apply elem_of_filter. split.
      * left. apply elem_of_difference. split.
        -- apply elem_of_dom. eauto.
        -- rewrite lookup_fmap in Hnone.
           apply not_elem_of_dom.
           destruct (run_dict t !! k); [discriminate|reflexivity].
      * apply elem_of_dom. exists v.
        apply lookup_union_Some_raw. right. now split.
  - intros (v_in & Hdv & Hnum & ->).
    unfold data_vars in Hdv. apply map_lookup_filter_Some in Hdv as [Hv Hncds].
    simpl in Hncds.
    destruct (run_dict_dom _ _ Hv Hncds Hnum) as [o Ho].
    destruct (run_dict_entry _ _ Ho) as (v_in' & Hv' & _ & _ & Hov & _).
    rewrite Hv in Hv'. injection Hv' as <-.
    split.
    + rewrite Hout. simpl. apply lookup_union_Some_raw. left.
      rewrite lookup_fmap, Ho. simpl. now rewrite Hov.
    + intros Hc. unfold coord_names in Hc.
      apply elem_of_filter in Hc as [[Hex|Hdim] _].
      * rewrite Hout in Hex. simpl in Hex.
        apply elem_of_difference in Hex as [_ Hnd]. apply Hnd.
        apply elem_of_dom. eauto.
      * apply (data_var_not_dim ds k v_in Hv Hncds).
        now apply (run_dims_out _ Hout).
Qed.

(** The [lat] and [lon] of the output are the regridder's output grid
    as soon as one variable was regridded. *)
Lemma run_output_grid :
  run_dict t <> ∅ ->
  variables out !! "lat" = Some (lat_out (run_regridder t)) /\
  variables out !! "lon" = Some (lon_out (run_regridder t)) /\
  "lat" ∈ coord_names out /\ "lon" ∈ coord_names out.
Proof.
  intros Hne. pose proof (run_out _ _ _ _ _ _ _ _ Hrun) as Hout.
  destruct run_lat_lon_dims as [Hlat Hlon].
  assert (Hnolat : run_dict t !! "lat" = None).
  { destruct (run_dict t !! "lat") as [o|] eqn:Ho; [|reflexivity].
    destruct (run_dict_entry _ _ Ho) as (v_in & Hv & Hnc & _).
    now destruct (data_var_not_dim ds "lat" v_in Hv Hnc). }
  assert (Hnolon : run_dict t !! "lon" = None).
  { destruct (run_dict t !! "lon") as [o|] eqn:Ho; [|reflexivity].
    destruct (run_dict_entry _ _ Ho) as (v_in & Hv & Hnc & _).
    now destruct (data_var_not_dim ds "lon" v_in Hv Hnc). }
  assert (Hmlat : merged_coords (run_dict t) !! "lat"
                  = Some (lat_out (run_regridder t))).
  { apply merged_coords_common; [exact Hne|]. intros n o Ho.
    now destruct (run_dict_entry _ _ Ho) as (_ & _ & _ & _ & _ & Hc & _). }
  assert (Hmlon : merged_coords (run_dict t) !! "lon"
                  = Some (lon_out (run_regridder t))).
  { apply merged_coords_common; [exact Hne|]. intros n o Ho.
    now destruct (run_dict_entry _ _ Ho) as (_ & _ & _ & _ & _ & _ & Hc & _). }
  assert (Hvlat : variables out !! "lat" = Some (lat_out (run_regridder t))).
  { rewrite Hout. simpl. apply lookup_union_Some_raw. right.
    split; [now rewrite lookup_fmap, Hnolat|exact Hmlat]. }
  assert (Hvlon : variables out !! "lon" = Some (lon_out (run_regridder t))).
  { rewrite Hout. simpl. apply lookup_union_Some_raw. right.
    split; [now rewrite lookup_fmap, Hnolon|exact Hmlon]. }
  split; [exact Hvlat|]. split; [exact Hvlon|].
  split; unfold coord_names; apply elem_of_filter.
  - split; [|apply elem_of_dom; eauto]. left. rewrite Hout. simpl.
    apply elem_of_difference. split; [apply elem_of_dom; eauto|].
    now apply not_elem_of_dom.
  - split; [|apply elem_of_dom; eauto]. left. rewrite Hout. simpl.
    apply elem_of_difference. split; [apply elem_of_dom; eauto|].
    now apply not_elem_of_dom.
Qed.

End Run.


(** ** Failures of [regrid] *)

Lemma no_failure_bind {A B : Type} (m : io A) (k : A -> io B) :
  no_precondition_failure m ->
  (forall x, no_precondition_failure (k x)) ->
  no_precondition_failure (io_bind m k).
Proof.
  intros Hm Hk w w' e. unfold io_bind.
  destruct (m w) as [w1 [e1|x]] eqn:E.
  - intros [= <- <-]. exact (Hm _ _ _ E).
  - apply Hk.
Qed.

Lemma no_failure_ret {A : Type} (x : A) : no_precondition_failure (io_ret x).
Proof. intros w w' e. discriminate. Qed.

Lemma no_failure_lift {A : Type} (r : result A) :
  (forall e, r = inl e -> precondition_failure e = false) ->
  no_precondition_failure (io_lift r).
Proof. intros Hr w w' e [= <- ->]. now apply Hr. Qed.

Lemma no_failure_assert (cond : bool) (msg : string) :
  precondition_failure (AssertionError msg) = false ->
  no_precondition_failure (py_assert cond msg).
Proof.
  intros Hmsg w w' e. unfold py_assert. destruct cond; [discriminate|].
  now intros [= <- <-].
Qed.

Lemma getitem_error (ds : Dataset) (n : string) (e : exn) :
  getitem ds n = inl e -> precondition_failure e = false.
Proof.
  unfold getitem. destruct (variables ds !! n); [discriminate|].
  destruct (dims ds !! n); [discriminate|]. now intros [= <-].
Qed.

Lemma len_error (da : DataArray) (e : exn) :
  len da = inl e -> precondition_failure e = false.
Proof.
  unfold len. destruct (v_shape (da_variable da)); [|discriminate].
  now intros [= <-].
Qed.

Lemma as_1d_error (dim : string) (da : DataArray) (e : exn) :
  as_1d dim da = inl e -> precondition_failure e = false.
Proof.
  unfold as_1d. destruct (v_shape (da_variable da)) as [|? [|? ?]];
    try discriminate; now intros [= <-].
Qed.

Lemma grid_shape_error (lat lon : xr_Variable) (e : exn) :
  grid_shape lat lon = inl e -> precondition_failure e = false.
Proof.
  unfold grid_shape.
  destruct (v_shape lat) as [|? [|? [|? ?]]];
    destruct (v_shape lon) as [|? [|? [|? ?]]];
    try discriminate; now intros [= <-].
Qed.

Lemma regrid_variables_error (r : Regridder) (ds : Dataset)
    (vars : list string) (d0 : gmap string DataArray) (e : exn) :
  regrid_variables r ds vars d0 = inl e -> precondition_failure e = false.
Proof.
  revert d0. induction vars as [|var rest IH]; intros d0; simpl.
  - discriminate.
  - unfold bind. destruct (getitem ds var) as [e1|da] eqn:Hget.
    + intros [= <-]. exact (getitem_error _ _ _ Hget).
    + unfold Regridder_call at 1.
      destruct (negb (bool_decide _)).
      * now intros [= <-].
      * apply IH.
Qed.

Lemma no_failure_need_bounds (method : string) (ds : Dataset) :
  no_precondition_failure (need_bounds method ds).
Proof.
  unfold need_bounds. destruct (String.eqb method "conservative").
  - apply no_failure_bind;
      [apply no_failure_lift, getitem_error|intros _].
    apply no_failure_bind;
      [apply no_failure_lift, getitem_error|intros _].
    apply no_failure_ret.
  - apply no_failure_ret.
Qed.

Lemma no_failure_write_weight_file (fname : string) (reuse : bool) :
  no_precondition_failure (write_weight_file fname reuse).
Proof.
  intros w w' e. unfold write_weight_file.
  destruct (bool_decide (fname ∈ files w) && reuse); discriminate.
Qed.

Lemma no_failure_clean_weight_file (r : Regridder) :
  no_precondition_failure (clean_weight_file r).
Proof.
  intros w w' e. unfold clean_weight_file.
  destruct (bool_decide (filename r ∈ files w)); discriminate.
Qed.

Ltac no_failure_step :=
  first
    [ apply no_failure_ret
    | apply no_failure_need_bounds
    | apply no_failure_write_weight_file
    | apply no_failure_clean_weight_file
    | apply no_failure_lift;
      first [ apply getitem_error | apply len_error | apply as_1d_error
            | apply grid_shape_error | apply regrid_variables_error ]
    | apply no_failure_assert; reflexivity
    | apply no_failure_bind; [|intros ?] ].

Section RegridFailures.

Context `{ESMF}.

Lemma no_failure_Regridder_init (ds_in ds_out : Dataset)
    (method fname : string) (reuse : bool) :
  no_precondition_failure (Regridder_init ds_in ds_out method fname reuse).
Proof. unfold Regridder_init. repeat no_failure_step. Qed.

(** C5.  [regrid] fails on one of its two assertions about dimensions
  exactly when the source dataset or the reference dataset does not
  declare both [lat] and [lon]; when both declare them, no failure of
  [regrid] is one of these. *)
Theorem regrid_requires_lat_lon (self : BasePreProcessor)
    (ds reference_ds : Dataset) (method : string) (w : World) :
  (exists msg,
      snd (regrid self ds reference_ds method w) = Raise (AssertionError msg)
      /\ (msg = need_reference_dims \/ msg = need_ds_dims))
  <-> declare_lat_lon ds reference_ds = false.
Proof.
  unfold declare_lat_lon, regrid.
  destruct (in_dims "lat" reference_ds && in_dims "lon" reference_ds) eqn:Eref.
  2:{ split; [reflexivity|]. intros _. exists need_reference_dims.
      split; [reflexivity|now left]. }
  destruct (in_dims "lat" ds && in_dims "lon" ds) eqn:Eds.
  2:{ rewrite <- andb_assoc, Eds. split; [reflexivity|]. intros _.
      exists need_ds_dims. split; [reflexivity|now right]. }
  rewrite <- andb_assoc, Eds. simpl. split; [|discriminate].
  intros (msg & Hres & Hmsg). exfalso.
  unfold io_bind at 1 in Hres. simpl in Hres.
  unfold io_bind at 1 in Hres. simpl in Hres.
  match type of Hres with snd (?m w) = _ =>
    assert (Hsafe : no_precondition_failure m)
  end.
  { repeat no_failure_step. }
  match type of Hres with snd (?m w) = _ =>
    destruct (m w) as [w' r] eqn:Em
  end.
  simpl in Hres. subst r. apply Hsafe in Em.
  destruct Hmsg as [-> | ->]; discriminate.
Qed.

End RegridFailures.


(** ** The claims on [regrid] *)

Lemma last2_app2 {A : Type} (l : list A) (x y : A) :
  last2 (l ++ [x; y]) = [x; y].
Proof.
  unfold last2. rewrite length_app. simpl.
  replace (length l + 2 - 2)%nat with (length l) by lia.
  now rewrite drop_app_length.
Qed.

Lemma append_assoc (s1 s2 s3 : string) :
  (s1 +:+ s2) +:+ s3 = s1 +:+ s2 +:+ s3.
Proof.
  induction s1 as [|c s1 IH]; [reflexivity|].
  change (String c ((s1 +:+ s2) +:+ s3) = String c (s1 +:+ s2 +:+ s3)).
  now rewrite IH.
Qed.

Section RegridClaims.

Context `{ESMF}.

(** C4, amended.  The dataset that [regrid] returns has exactly the
  numeric data variables of the input, those that [ds.var()] keeps:
  none is added, and the ones that are not numeric are left out.  Each
  is numeric and lies on the destination grid, its trailing dimensions
  being [lat] and [lon] with the lengths of the reference. *)
Theorem regrid_keeps_numeric_variables (self : BasePreProcessor)
    (ds reference_ds : Dataset) (method : string) (w w' : World)
    (out : Dataset) :
  regrid self ds reference_ds method w = (w', Ok out) ->
  dom (data_vars out)
    = dom (filter (fun kv => v_numeric kv.2 = true) (data_vars ds)) /\
  exists ref_lat ref_lon ny nx,
    getitem reference_ds "lat" = Ok ref_lat /\ len ref_lat = Ok ny /\
    getitem reference_ds "lon" = Ok ref_lon /\ len ref_lon = Ok nx /\
    forall k v, data_vars out !! k = Some v ->
      v_numeric v = true /\
      last2 (v_sizes v) = [("lat", ny); ("lon", nx)].
Proof.
  intros Hreg. destruct (regrid_ok _ _ _ _ _ _ _ Hreg) as [t Hrun].
  split.
  - apply set_eq. intros k. rewrite !elem_of_dom. split.
    + intros [v Hv].
      apply (run_output_vars _ _ _ _ _ _ _ _ Hrun) in Hv
        as (v_in & Hin & Hnum & _).
      exists v_in. apply map_lookup_filter_Some. now split.
    + intros [v_in Hv]. apply map_lookup_filter_Some in Hv as [Hin Hnum].
      exists (regridded t v_in).
      apply (run_output_vars _ _ _ _ _ _ _ _ Hrun). exists v_in.
      now repeat split.
  - exists (run_ref_lat t), (run_ref_lon t),
           (fst (run_shape_out t)), (snd (run_shape_out t)).
    destruct (run_len_out _ _ _ _ _ _ _ _ Hrun) as [Hny Hnx].
    split; [exact (run_get_ref_lat _ _ _ _ _ _ _ _ Hrun)|].
    split; [exact Hny|].
    split; [exact (run_get_ref_lon _ _ _ _ _ _ _ _ Hrun)|].
    split; [exact Hnx|].
    intros k v Hv.
    apply (run_output_vars _ _ _ _ _ _ _ _ Hrun) in Hv as (v_in & _ & _ & ->).
    split; [reflexivity|]. unfold regridded. simpl. apply last2_app2.
Qed.


(** C10, amended.  When the input has a numeric data variable, the
  dataset that [regrid] returns has coordinates [lat] and [lon] whose
  values are those of the reference dataset's [lat] and [lon], whatever
  the method. *)
Theorem regrid_output_on_reference_grid (self : BasePreProcessor)
    (ds reference_ds : Dataset) (method : string) (w w' : World)
    (out : Dataset) :
  regrid self ds reference_ds method w = (w', Ok out) ->
  (exists k v, data_vars ds !! k = Some v /\ v_numeric v = true) ->
  exists ref_lat ref_lon lat lon,
    getitem reference_ds "lat" = Ok ref_lat /\
    getitem reference_ds "lon" = Ok ref_lon /\
    coords out !! "lat" = Some lat /\ coords out !! "lon" = Some lon /\
    v_values lat = v_values (da_variable ref_lat) /\
    v_values lon = v_values (da_variable ref_lon).
Proof.
  intros Hreg (k & v & Hv & Hnum).
  destruct (regrid_ok _ _ _ _ _ _ _ Hreg) as [t Hrun].
  assert (Hne : run_dict t <> ∅).
  { unfold data_vars in Hv. apply map_lookup_filter_Some in Hv as [Hv Hnc].
    destruct (run_dict_dom _ _ _ _ _ _ _ _ Hrun k v Hv Hnc Hnum) as [o Ho].
    intros Hempty. rewrite Hempty, lookup_empty in Ho. discriminate. }
  destruct (run_output_grid _ _ _ _ _ _ _ _ Hrun Hne)
    as (Hlat & Hlon & Hclat & Hclon).
  exists (run_ref_lat t), (run_ref_lon t),
         (lat_out (run_regridder t)), (lon_out (run_regridder t)).
  split; [exact (run_get_ref_lat _ _ _ _ _ _ _ _ Hrun)|].
  split; [exact (run_get_ref_lon _ _ _ _ _ _ _ _ Hrun)|].
  split; [unfold coords; apply map_lookup_filter_Some; now split|].
  split; [unfold coords; apply map_lookup_filter_Some; now split|].
  rewrite (run_lat_out _ _ _ _ _ _ _ _ Hrun),
          (run_lon_out _ _ _ _ _ _ _ _ Hrun).
  split; reflexivity.
Qed.

End RegridClaims.


Lemma regrid_keeps_numeric_variables_witness :
  dom (data_vars (returned regrid_example))
    = dom (filter (fun kv => v_numeric kv.2 = true) (data_vars ds_example)) /\
  exists ref_lat ref_lon ny nx,
    getitem reference_example "lat" = Ok ref_lat /\ len ref_lat = Ok ny /\
    getitem reference_example "lon" = Ok ref_lon /\ len ref_lon = Ok nx /\
    forall k v, data_vars (returned regrid_example) !! k = Some v ->
      v_numeric v = true /\
      last2 (v_sizes v) = [("lat", ny); ("lon", nx)].
Proof.
  apply (@regrid_keeps_numeric_variables first_value_esmf preprocessor_example
           ds_example reference_example "nearest_s2d" empty_world
           (fst regrid_example)).
  vm_compute. reflexivity.
Defined.

(** C4, counterexample.  The variable [flag] of the example dataset is
    not numeric; the call succeeds and the result has no [flag]. *)
Lemma regrid_drops_non_numeric_variable :
  regrid_example = (fst regrid_example, Ok (returned regrid_example)) /\
  "flag" ∈ dom (data_vars ds_example) /\
  "flag" ∉ dom (data_vars (returned regrid_example)).
Proof.
  split; [vm_compute; reflexivity|]. split.
  - apply elem_of_dom. eexists. vm_compute. reflexivity.
  - apply not_elem_of_dom. vm_compute. reflexivity.
Qed.


(** The journal of the example call: one weight file, written once and
    removed. *)
Example regrid_example_journal :
  journal (fst regrid_example)
    = [WriteWeights "data/interim/nearest_s2d_2x3_1x2.nc";
       Remove "data/interim/nearest_s2d_2x3_1x2.nc"].
Proof. vm_compute. reflexivity. Qed.

Lemma regrid_output_on_reference_grid_witness :
  exists ref_lat ref_lon lat lon,
    getitem reference_example "lat" = Ok ref_lat /\
    getitem reference_example "lon" = Ok ref_lon /\
    coords (returned regrid_example) !! "lat" = Some lat /\
    coords (returned regrid_example) !! "lon" = Some lon /\
    v_values lat = v_values (da_variable ref_lat) /\
    v_values lon = v_values (da_variable ref_lon).
Proof.
  apply (@regrid_output_on_reference_grid first_value_esmf
           preprocessor_example ds_example reference_example "nearest_s2d"
           empty_world (fst regrid_example)).
  - vm_compute. reflexivity.
  - exists "precip", (mkVariable [("lat", 2%nat); ("lon", 3%nat)] true
                        [1%Q; 2%Q; 3%Q; 4%Q; 5%Q; 6%Q]).
    split; vm_compute; reflexivity.
Defined.

(** C10, counterexample.  A dataset with [lat] and [lon] but no data
    variable is accepted, and the dataset returned has no [lat] at all,
    while the reference has [lat = [5]]. *)
Lemma regrid_without_variables_has_no_grid :
  exists w' out,
    @regrid first_value_esmf preprocessor_example reference_example
      reference_example "bilinear" empty_world = (w', Ok out) /\
    coords out !! "lat" = None /\ variables out !! "lat" = None /\
    exists ref_lat, getitem reference_example "lat" = Ok ref_lat /\
      v_values (da_variable ref_lat) = [5%Q].
Proof.
  eexists _, _. split; [vm_compute; reflexivity|].
  split; [vm_compute; reflexivity|]. split; [vm_compute; reflexivity|].
  eexists. split; vm_compute; reflexivity.
Qed.

Lemma regrid_requires_lat_lon_witness :
  exists msg,
    snd (@regrid first_value_esmf preprocessor_example ds_no_grid
           reference_example "bilinear" empty_world)
      = Raise (AssertionError msg)
    /\ (msg = need_reference_dims \/ msg = need_ds_dims).
Proof.
  apply (proj2 (@regrid_requires_lat_lon first_value_esmf preprocessor_example
                  ds_no_grid reference_example "bilinear" empty_world)).
  vm_compute. reflexivity.
Defined.


(** ** Resampling in time *)

#[global] Instance time_le_total : Total time_le.
Proof. intros p q. unfold time_le. lia. Qed.

#[global] Instance time_le_trans : Transitive time_le.
Proof. intros p q r. unfold time_le. lia. Qed.

Lemma sortby_time_Permutation (ds : series) : sortby_time ds ≡ₚ ds.
Proof. apply merge_sort_Permutation. Qed.

Lemma sortby_time_sorted (ds : series) : StronglySorted time_le (sortby_time ds).
Proof. apply StronglySorted_merge_sort; apply _. Qed.

Lemma values_in_Permutation (f : freq) (k : Z) (l1 l2 : series) :
  l1 ≡ₚ l2 -> values_in f k l1 ≡ₚ values_in f k l2.
Proof. intros Hp. unfold values_in. now rewrite Hp. Qed.

Lemma Qsum_Permutation (l1 l2 : list Q) :
  l1 ≡ₚ l2 -> (Qsum l1 == Qsum l2)%Q.
Proof.
  induction 1 as [|x l1 l2 _ IH|x y l|l1 l2 l3 _ IH1 _ IH2]; simpl.
  - reflexivity.
  - now rewrite IH.
  - ring.
  - now rewrite IH1.
Qed.

Lemma Qsum_replicate (n : nat) (c : Q) :
  (Qsum (replicate n c) == inject_Z (Z.of_nat n) * c)%Q.
Proof.
  induction n as [|n IH].
  - simpl. ring.
  - change (replicate (S n) c) with (c :: replicate n c). simpl Qsum.
    rewrite IH, Nat2Z.inj_succ. unfold Z.succ. rewrite inject_Z_plus. ring.
Qed.

Lemma inject_Z_of_nat_pos (n : nat) :
  (0 < n)%nat -> (0 < inject_Z (Z.of_nat n))%Q.
Proof.
  intros Hn. change 0%Q with (inject_Z 0). rewrite <- Zlt_Qlt. lia.
Qed.

(** The mean times the count is the sum. *)
Lemma Qmean_spec (l : list Q) :
  l <> [] -> (Qmean l * inject_Z (Z.of_nat (length l)) == Qsum l)%Q.
Proof.
  intros Hne. unfold Qmean. field.
  assert (Hpos : (0 < length l)%nat) by (destruct l; [congruence|simpl; lia]).
  pose proof (inject_Z_of_nat_pos _ Hpos). lra.
Qed.

Lemma Qmean_replicate (n : nat) (c : Q) :
  (0 < n)%nat -> (Qmean (replicate n c) == c)%Q.
Proof.
  intros Hn. unfold Qmean. rewrite Qsum_replicate, length_replicate.
  field. pose proof (inject_Z_of_nat_pos _ Hn). lra.
Qed.

Lemma resample_mean_samples (f : freq) (ds out : series) :
  resample_time ds f false = Ok out ->
  Forall (fun s =>
            exists k, s.1 = label f k /\
              match s.2 with
              | Some m =>
                  values_in f k ds <> [] /\
                  (m * inject_Z (Z.of_nat (length (values_in f k ds)))
                   == Qsum (values_in f k ds))%Q
              | None => values_in f k ds = []
              end) out.
Proof.
  unfold resample_time. simpl. unfold resample_mean, bind.
  destruct (periods f (sortby_time ds)) as [e|ks]; [discriminate|].
  intros [= <-]. apply Forall_fmap, Forall_forall. intros k _. simpl.
  exists k. split; [reflexivity|].
  pose proof (values_in_Permutation f k _ _ (sortby_time_Permutation ds)) as Hp.
  unfold nanmean.
  destruct (values_in f k (sortby_time ds)) as [|x xs] eqn:E.
  - symmetry. apply Permutation_nil_l. exact Hp.
  - split.
    + intros Hnil. rewrite Hnil in Hp. apply Permutation_nil_r in Hp.
      discriminate.
    + rewrite <- (Qsum_Permutation _ _ Hp).
      rewrite <- (Permutation_length Hp).
      apply Qmean_spec. discriminate.
Qed.

Lemma values_in_constant (f : freq) (s : series) (b : Z) (c : Q) :
  (forall p, p ∈ s -> bin f p.1 = b /\ p.2 = Some c) ->
  values_in f b s = replicate (length s) c.
Proof.
  unfold values_in. induction s as [|p s IH]; intros Hs; [reflexivity|].
  destruct (Hs p) as [Hb Hv]; [left|].
  rewrite filter_cons_True by exact Hb. simpl. rewrite Hv. simpl.
  f_equal. apply IH. intros q Hq. apply Hs. now right.
Qed.

Lemma seqZ_one (b : Z) : seqZ b 1 = [b].
Proof. rewrite seqZ_cons by lia. reflexivity. Qed.

(** A series whose samples all fall in one period and hold one value is
    resampled to that period's label with that value. *)
Lemma resample_mean_constant (f : freq) (ds : series) (b : Z) (c : Q) :
  ds <> [] ->
  (forall p, p ∈ ds -> bin f p.1 = b /\ p.2 = Some c) ->
  exists m, resample_time ds f false = Ok [(label f b, Some m)] /\
    (m == c)%Q.
Proof.
  intros Hne Hall. unfold resample_time. simpl.
  pose proof (sortby_time_Permutation ds) as Hp.
  set (s := sortby_time ds) in *.
  assert (Hs : forall p, p ∈ s -> bin f p.1 = b /\ p.2 = Some c).
  { intros p Hin. apply Hall. now rewrite <- Hp. }
  assert (Hsne : s <> []).
  { intros Hnil. rewrite Hnil in Hp. apply Permutation_nil_l in Hp.
    congruence. }
  unfold resample_mean, periods.
  destruct (head s) as [[t0 v0]|] eqn:Eh;
    [|apply head_None in Eh; contradiction].
  destruct (last s) as [[t1 v1]|] eqn:El;
    [|apply last_None in El; contradiction].
  apply head_Some_elem_of in Eh. apply last_Some_elem_of in El.
  destruct (Hs _ Eh) as [Hb0 _]. destruct (Hs _ El) as [Hb1 _].
  simpl in Hb0, Hb1. rewrite Hb0, Hb1.
  replace (b - b + 1) with 1 by lia. rewrite seqZ_one.
  unfold bind, Ok. cbn [map].
  rewrite (values_in_constant f s b c Hs). unfold nanmean.
  destruct (length s) as [|n] eqn:En.
  { apply length_zero_iff_nil in En. contradiction. }
  eexists. split; [reflexivity|].
  apply Qmean_replicate. lia.
Qed.

Lemma long_months_ok :
  forallb (fun y => forallb (long_month_ok y) long_months) timestamp_years
    = true.
Proof. vm_compute. reflexivity. Qed.

Lemma long_month_ok_spec (y m : Z) :
  1678 <= y <= 2261 -> m ∈ long_months ->
  (forall i, (i < 31)%nat ->
     bin MonthEnd (days_from_civil y m 1 + Z.of_nat i) = 12 * y + (m - 1)) /\
  label MonthEnd (12 * y + (m - 1)) = days_from_civil y m 31.
Proof.
  intros Hy Hm. pose proof long_months_ok as Hall.
  rewrite forallb_forall in Hall.
  assert (Hyin : In y timestamp_years).
  { apply list_elem_of_In, elem_of_seqZ. lia. }
  specialize (Hall y Hyin). rewrite forallb_forall in Hall.
  apply list_elem_of_In in Hm. specialize (Hall m Hm).
  unfold long_month_ok in Hall. apply andb_true_iff in Hall as [Hbins Hlab].
  rewrite forallb_forall in Hbins. split.
  - intros i Hi. apply Z.eqb_eq. apply Hbins. apply in_seq. lia.
  - now apply Z.eqb_eq.
Qed.




(** ** Nearest-value fill *)

Lemma StronglySorted_head_le (s : series) (x y : Z * option Q) :
  StronglySorted time_le s -> head s = Some x -> y ∈ s -> x.1 <= y.1.
Proof.
  intros Hs Hh Hy. destruct s as [|z s]; [discriminate|].
  simpl in Hh. injection Hh as ->.
  apply StronglySorted_inv in Hs as [_ Hall].
  apply elem_of_cons in Hy as [->|Hy]; [lia|].
  rewrite Forall_forall in Hall. now apply (Hall y).
Qed.

Lemma StronglySorted_last_ge (s : series) (x y : Z * option Q) :
  StronglySorted time_le s -> last s = Some x -> y ∈ s -> y.1 <= x.1.
Proof.
  intros Hs Hl Hy. apply last_Some in Hl as [s' ->].
  apply elem_of_app in Hy as [Hy|Hy].
  - apply (StronglySorted_app_1_elem_of time_le s' [x] y x Hs Hy). now left.
  - apply list_elem_of_singleton in Hy as ->. lia.
Qed.

Lemma StronglySorted_filter (P : Z * option Q -> Prop)
    `{forall p, Decision (P p)} (s : series) :
  StronglySorted time_le s -> StronglySorted time_le (filter P s).
Proof.
  induction 1 as [|x s Hs IH Hall]; [constructor|].
  rewrite filter_cons. destruct (decide (P x)); [|exact IH].
  constructor; [exact IH|].
  rewrite Forall_forall in Hall |- *. intros y Hy. apply Hall.
  now apply list_elem_of_filter in Hy as [_ Hy].
Qed.

Lemma pad_spec (s : series) (t : Z) (l : Z * option Q) :
  StronglySorted time_le s -> pad s t = Some l ->
  l ∈ s /\ l.1 <= t /\ forall p, p ∈ s -> p.1 <= t -> p.1 <= l.1.
Proof.
  intros Hs Hp. unfold pad in Hp.
  pose proof (last_Some_elem_of _ _ Hp) as Hin.
  apply list_elem_of_filter in Hin as [Hle Hin].
  split; [exact Hin|]. split; [exact Hle|]. intros p Hps Hpt.
  apply (StronglySorted_last_ge (filter (fun p => p.1 <= t) s));
    [now apply StronglySorted_filter|exact Hp|].
  now apply list_elem_of_filter.
Qed.

Lemma pad_None (s : series) (t : Z) :
  pad s t = None -> forall p, p ∈ s -> t < p.1.
Proof.
  intros Hp p Hps. unfold pad in Hp. apply last_None in Hp.
  destruct (decide (p.1 <= t)) as [Hle|Hgt]; [|lia].
  assert (Hin : p ∈ filter (fun p => p.1 <= t) s)
    by now apply list_elem_of_filter.
  rewrite Hp in Hin. inversion Hin.
Qed.

Lemma backfill_spec (s : series) (t : Z) (r : Z * option Q) :
  StronglySorted time_le s -> backfill s t = Some r ->
  r ∈ s /\ t <= r.1 /\ forall p, p ∈ s -> t <= p.1 -> r.1 <= p.1.
Proof.
  intros Hs Hb. unfold backfill in Hb.
  pose proof (head_Some_elem_of _ _ Hb) as Hin.
  apply list_elem_of_filter in Hin as [Hle Hin].
  split; [exact Hin|]. split; [exact Hle|]. intros p Hps Hpt.
  apply (StronglySorted_head_le (filter (fun p => t <= p.1) s));
    [now apply StronglySorted_filter|exact Hb|].
  now apply list_elem_of_filter.
Qed.

Lemma backfill_None (s : series) (t : Z) :
  backfill s t = None -> forall p, p ∈ s -> p.1 < t.
Proof.
  intros Hb p Hps. unfold backfill in Hb. apply head_None in Hb.
  destruct (decide (t <= p.1)) as [Hle|Hgt]; [|lia].
  assert (Hin : p ∈ filter (fun p => t <= p.1) s)
    by now apply list_elem_of_filter.
  rewrite Hb in Hin. inversion Hin.
Qed.

(** On a sorted series, [nearest] returns a sample that no other sample
    is closer to [t] than. *)
Lemma nearest_spec (s : series) (t : Z) :
  StronglySorted time_le s -> s <> [] ->
  exists p, nearest s t = Some p /\ p ∈ s /\
    forall q, q ∈ s -> Z.abs (p.1 - t) <= Z.abs (q.1 - t).
Proof.
  intros Hs Hne. unfold nearest.
  destruct (pad s t) as [l|] eqn:El; destruct (backfill s t) as [r|] eqn:Er.
  - destruct (pad_spec _ _ _ Hs El) as (Hl1 & Hl2 & Hl3).
    destruct (backfill_spec _ _ _ Hs Er) as (Hr1 & Hr2 & Hr3).
    destruct (t - l.1 <? r.1 - t) eqn:Ecmp.
    + apply Z.ltb_lt in Ecmp. exists l. split; [reflexivity|].
      split; [exact Hl1|]. intros q Hq.
      destruct (decide (q.1 <= t)) as [Hqt|Hqt].
      * specialize (Hl3 _ Hq Hqt). lia.
      * specialize (Hr3 _ Hq ltac:(lia)). lia.
    + apply Z.ltb_ge in Ecmp. exists r. split; [reflexivity|].
      split; [exact Hr1|]. intros q Hq.
      destruct (decide (q.1 <= t)) as [Hqt|Hqt].
      * specialize (Hl3 _ Hq Hqt). lia.
      * specialize (Hr3 _ Hq ltac:(lia)). lia.
  - destruct (pad_spec _ _ _ Hs El) as (Hl1 & Hl2 & Hl3).
    pose proof (backfill_None _ _ Er) as Hnone.
    exists l. split; [reflexivity|]. split; [exact Hl1|]. intros q Hq.
    specialize (Hnone _ Hq). specialize (Hl3 _ Hq ltac:(lia)). lia.
  - destruct (backfill_spec _ _ _ Hs Er) as (Hr1 & Hr2 & Hr3).
    pose proof (pad_None _ _ El) as Hnone.
    exists r. split; [reflexivity|]. split; [exact Hr1|]. intros q Hq.
    specialize (Hnone _ Hq). specialize (Hr3 _ Hq ltac:(lia)). lia.
  - destruct s as [|p s]; [congruence|].
    pose proof (pad_None _ _ El p ltac:(left)).
    pose proof (backfill_None _ _ Er p ltac:(left)). lia.
Qed.



